(** * Smart Home Analytics AI: the Ollama client and the Graphiti engine

    A shallow embedding of [scripts/ollama_client.py] and [scripts/main.py],
    and the properties of the extraction pipeline proved about it.

    Conventions of the embedding:
    - a Python [str] is the list of its Unicode code points ([list N]);
    - a Python value that travels through the JSON layer is a [json] term;
    - a coroutine is a computation in the monad [M]: it threads the [world]
      (the requests sent to the backend, the log, the graph store) and ends
      either with [Returned v] or with [Raised e], [e] an instance of
      Python's [Exception];
    - the backend is a function from the request history to its reply: the
      environment chooses every reply;
    - [json.loads] runs on an interpreter whose limits -- how deep its
      recursion goes, how many digits [int] converts -- belong to the
      environment: past them it raises [RecursionError] or [ValueError],
      not [JSONDecodeError]. *)

From Stdlib Require Import String Ascii.
From Stdlib Require Import List NArith ZArith Bool Lia.
From Stdlib Require Import Relations.Relation_Operators.
Import ListNotations.

Set Implicit Arguments.
Set Warnings "-register-all".

(* ================================================================== *)
(** * Python strings *)
(* ================================================================== *)

Module PyStr.

Local Open Scope N_scope.

Definition str := list N.

(** The code points of a literal (one code point per character of the
    literal, all below 256). *)
Definition py (s : string) : str :=
  List.map N_of_ascii (list_ascii_of_string s).
Arguments py s%_string.

Definition LF : N := 10.
Definition DQ : N := 34.
Definition BACKSLASH : N := 92.

Fixpoint str_eqb (a b : str) : bool :=
  match a, b with
  | [], [] => true
  | x :: a', y :: b' => (x =? y) && str_eqb a' b'
  | _, _ => false
  end.

(** [str.isspace] on one code point: the characters Python's
    [str.strip()] removes. *)
Definition isspace (c : N) : bool :=
  ((9 <=? c) && (c <=? 13)) || ((28 <=? c) && (c <=? 32))
  || (c =? 133) || (c =? 160) || (c =? 5760)
  || ((8192 <=? c) && (c <=? 8202))
  || (c =? 8232) || (c =? 8233) || (c =? 8239) || (c =? 8287)
  || (c =? 12288).

Fixpoint lstrip (s : str) : str :=
  match s with
  | [] => []
  | c :: s' => if isspace c then lstrip s' else s
  end.

Definition rstrip (s : str) : str := rev (lstrip (rev s)).

(** [s.strip()] *)
Definition strip (s : str) : str := rstrip (lstrip s).

(** [s.startswith(p)] *)
Fixpoint startswith (s p : str) {struct p} : bool :=
  match p, s with
  | [], _ => true
  | _ :: _, [] => false
  | a :: p', b :: s' => (a =? b) && startswith s' p'
  end.

(** [s.split(sep)] for a one-character separator: never the empty list. *)
Fixpoint split (sep : N) (s : str) : list str :=
  match s with
  | [] => [[]]
  | c :: s' =>
      if c =? sep then [] :: split sep s'
      else match split sep s' with
           | l :: ls => (c :: l) :: ls
           | [] => [[c]]
           end
  end.

(** [s[a:-b]] for literals [a], [b > 0]: the characters at the positions
    [a <= i < len(s) - b]; empty when there are none. *)
Definition slice (a b : nat) (s : str) : str :=
  skipn a (firstn (length s - b) s).

(** [bool(s)]: a string is truthy when it is not empty. *)
Definition truthy (s : str) : bool :=
  match s with [] => false | _ :: _ => true end.

End PyStr.

Import PyStr.

(* ================================================================== *)
(** * JSON values and [json.loads] *)
(* ================================================================== *)

Module Json.

Local Open Scope N_scope.

(** The values [json.loads] builds. A float keeps the text of its
    literal (the conversion to a double is not modelled); the three
    constants are the non-standard literals Python accepts. A [JDict] is
    a Python dict: its keys in insertion order, no key twice. *)
Inductive constant := NaN | PosInfinity | NegInfinity.

Inductive json :=
| JNull
| JBool (b : bool)
| JInt (z : Z)
| JFloat (lexeme : str)
| JConst (c : constant)
| JStr (s : str)
| JList (l : list json)
| JDict (items : list (str * json)).

(** [d[k] = v] *)
Fixpoint dict_set (k : str) (v : json) (d : list (str * json))
  : list (str * json) :=
  match d with
  | [] => [(k, v)]
  | (k', v') :: d' =>
      if str_eqb k k' then (k', v) :: d' else (k', v') :: dict_set k v d'
  end.

(** [dict(pairs)] *)
Definition dict_of_pairs (pairs : list (str * json)) : list (str * json) :=
  fold_left (fun d kv => dict_set (fst kv) (snd kv) d) pairs [].

(** [d.get(k)] on the items of a dict *)
Fixpoint dict_lookup (k : str) (d : list (str * json)) : option json :=
  match d with
  | [] => None
  | (k', v) :: d' => if str_eqb k k' then Some v else dict_lookup k d'
  end.

(** What the interpreter allows a decoding: [max_depth] is how many
    arrays and objects may be open inside one another before the C
    scanner's [Py_EnterRecursiveCall] raises [RecursionError] (what is
    left of [sys.getrecursionlimit()] at the call); [max_digits] is
    [sys.get_int_max_str_digits()], the most digits [int] converts, with
    0 for no limit. *)
Record limits := {
  max_depth : nat;
  max_digits : nat
}.

(** How a decoding fails: with [JSONDecodeError] on a text that is not
    JSON, with [RecursionError] on one nested too deep, with
    [ValueError] on an integer literal of too many digits. *)
Inductive failure := Malformed | TooDeep | TooLong.

(** The result of a scanning function: a value and the rest of the
    input, an exception, or recursion budget exhausted (which [loads]
    below never reaches, see [decode_total]). *)
Inductive res (A : Type) :=
| Ok (a : A) (rest : str)
| Err (e : failure)
| OutOfFuel.
Arguments Err {A} e.
Arguments OutOfFuel {A}.

(** [WHITESPACE]: space, tab, line feed, carriage return. *)
Definition is_ws (c : N) : bool :=
  (c =? 32) || (c =? 9) || (c =? 10) || (c =? 13).

Fixpoint skip_ws (s : str) : str :=
  match s with
  | [] => []
  | c :: s' => if is_ws c then skip_ws s' else s
  end.

Definition is_digit (c : N) : bool := (48 <=? c) && (c <=? 57).

(** The longest prefix of digits, and what follows it. *)
Fixpoint span_digits (s : str) : str * str :=
  match s with
  | [] => ([], [])
  | c :: s' =>
      if is_digit c then
        let '(d, r) := span_digits s' in (c :: d, r)
      else ([], s)
  end.

(** [int(digits)] for a string of decimal digits *)
Definition int_of_digits (d : str) : Z :=
  fold_left (fun acc c => (10 * acc + Z.of_N (c - 48))%Z) d 0%Z.

(** The first group of [NUMBER_RE]: an optional minus sign, then either
    a single zero or a non-zero digit followed by digits. *)
Definition match_integer (s : str) : option (str * str) :=
  let '(sign, s1) :=
    match s with
    | c :: s' => if c =? 45 then ([45], s') else ([], s)
    | [] => ([], s)
    end in
  match s1 with
  | c :: s2 =>
      if c =? 48 then Some (sign ++ [48], s2)
      else if is_digit c then
        let '(d, r) := span_digits s2 in Some (sign ++ c :: d, r)
      else None
  | [] => None
  end.

(** The second group of [NUMBER_RE]: a dot and at least one digit, or
    nothing. *)
Definition match_frac (s : str) : str * str :=
  match s with
  | c :: s' =>
      if c =? 46 then
        match span_digits s' with
        | ([], _) => ([], s)
        | (d, r) => (c :: d, r)
        end
      else ([], s)
  | [] => ([], s)
  end.

(** The third group of [NUMBER_RE]: [e] or [E], an optional sign and at
    least one digit, or nothing. *)
Definition match_exp (s : str) : str * str :=
  match s with
  | c :: s' =>
      if (c =? 101) || (c =? 69) then
        let '(sign, s1) :=
          match s' with
          | g :: s'' =>
              if (g =? 45) || (g =? 43) then ([g], s'') else ([], s')
          | [] => ([], s')
          end in
        match span_digits s1 with
        | ([], _) => ([], s)
        | (d, r) => (c :: sign ++ d, r)
        end
      else ([], s)
  | [] => ([], s)
  end.

(** [int(integer)] refuses a literal of more digits than the
    interpreter allows; the sign does not count. *)
Definition too_many_digits (L : limits) (integer : str) : bool :=
  let digits :=
    match integer with
    | c :: d => if c =? 45 then d else integer
    | [] => []
    end in
  ((0 <? max_digits L) && (max_digits L <? length digits))%nat.

(** [match_number] and the conversion of its groups: [int(integer)]
    when there is neither a fraction nor an exponent, a float
    otherwise. [None]: no number here. *)
Definition scan_number (L : limits) (s : str) : option (res json) :=
  match match_integer s with
  | None => None
  | Some (integer, s1) =>
      let '(frac, s2) := match_frac s1 in
      let '(exp, s3) := match_exp s2 in
      match frac, exp with
      | [], [] =>
          if too_many_digits L integer then Some (Err TooLong)
          else
            Some (Ok (match integer with
                      | c :: d =>
                          if c =? 45 then JInt (- int_of_digits d)
                          else JInt (int_of_digits integer)
                      | [] => JInt 0
                      end) s3)
      | _, _ => Some (Ok (JFloat (integer ++ frac ++ exp)) s3)
      end
  end.

Definition hexval (c : N) : option N :=
  if is_digit c then Some (c - 48)
  else if (65 <=? c) && (c <=? 70) then Some (c - 55)
  else if (97 <=? c) && (c <=? 102) then Some (c - 87)
  else None.

(** [_decode_uXXXX]: four hexadecimal digits. *)
Definition decode_uXXXX (s : str) : option (N * str) :=
  match s with
  | a :: b :: c :: d :: r =>
      match hexval a, hexval b, hexval c, hexval d with
      | Some x, Some y, Some z, Some t =>
          Some (4096 * x + 256 * y + 16 * z + t, r)
      | _, _, _, _ => None
      end
  | _ => None
  end.

(** [BACKSLASH]: the one-character escapes. *)
Definition unescape (c : N) : option N :=
  if c =? 34 then Some 34
  else if c =? 92 then Some 92
  else if c =? 47 then Some 47
  else if c =? 98 then Some 8
  else if c =? 102 then Some 12
  else if c =? 110 then Some 10
  else if c =? 114 then Some 13
  else if c =? 116 then Some 9
  else None.

(** [0x10000 + (((uni - 0xd800) << 10) | (uni2 - 0xdc00))] *)
Definition join_surrogates (uni uni2 : N) : N :=
65536 + N.lor (N.shiftl (uni - 55296) 10) (uni2 - 56320).

Definition is_high_surrogate (u : N) : bool := (55296 <=? u) && (u <=? 56319).
Definition is_low_surrogate (u : N) : bool := (56320 <=? u) && (u <=? 57343).

(** [py_scanstring(s, end, strict=True)], entered after the opening
    quote: the decoded string and what follows the closing quote. *)
Fixpoint scanstring (fuel : nat) (s : str) : res str :=
  match fuel with
  | O => OutOfFuel
  | S fuel' =>
      match s with
      | [] => Err Malformed
      | c :: s1 =>
          if c =? 34 then Ok [] s1
          else if c =? 92 then
            match s1 with
            | [] => Err Malformed
            | e :: s2 =>
                if e =? 117 then
                  match decode_uXXXX s2 with
                  | None => Err Malformed
                  | Some (uni, s3) =>
                      let single :=
                        match scanstring fuel' s3 with
                        | Ok t r => Ok (uni :: t) r
                        | Err e => Err e
                        | OutOfFuel => OutOfFuel
                        end in
                      if is_high_surrogate uni && startswith s3 [92; 117]
                      then
                        match decode_uXXXX (skipn 2 s3) with
                        | None => Err Malformed
                        | Some (uni2, s4) =>
                            if is_low_surrogate uni2 then
                              match scanstring fuel' s4 with
                              | Ok t r =>
                                  Ok (join_surrogates uni uni2 :: t) r
                              | Err e => Err e
                              | OutOfFuel => OutOfFuel
                              end
                            else single
                        end
                      else single
                  end
                else
                  match unescape e with
                  | None => Err Malformed
                  | Some ch =>
                      match scanstring fuel' s2 with
                      | Ok t r => Ok (ch :: t) r
                      | Err e => Err e
                      | OutOfFuel => OutOfFuel
                      end
                  end
            end
          else if c <? 32 then Err Malformed
          else
            match scanstring fuel' s1 with
            | Ok t r => Ok (c :: t) r
            | Err e => Err e
            | OutOfFuel => OutOfFuel
            end
      end
  end.

(** [scan_once], [JSONArray] and [JSONObject] of [json.decoder] /
    [json.scanner]. [array_items] and [object_items] are the bodies of
    the two [while True] loops; the budget decreases at every call.
    [depth] is how many more arrays and objects may be opened: the
    scanner enters one before it looks at what is inside. *)
Fixpoint scan_once (L : limits) (depth fuel : nat) (s : str) {struct fuel}
  : res json :=
  match fuel with
  | O => OutOfFuel
  | S fuel' =>
      match s with
      | [] => Err Malformed
      | c :: s' =>
          if c =? 34 then
            match scanstring (S (length s')) s' with
            | Ok t r => Ok (JStr t) r
            | Err e => Err e
            | OutOfFuel => OutOfFuel
            end
          else if c =? 123 then
            match depth with
            | O => Err TooDeep
            | S depth' =>
                match skip_ws s' with
                | d :: r =>
                    if d =? 125 then Ok (JDict []) r
                    else if d =? 34 then
                      match object_items L depth' fuel' r with
                      | Ok pairs r' => Ok (JDict (dict_of_pairs pairs)) r'
                      | Err e => Err e
                      | OutOfFuel => OutOfFuel
                      end
                    else Err Malformed
                | [] => Err Malformed
                end
            end
          else if c =? 91 then
            match depth with
            | O => Err TooDeep
            | S depth' =>
                match skip_ws s' with
                | d :: r =>
                    if d =? 93 then Ok (JList []) r
                    else
                      match array_items L depth' fuel' (d :: r) with
                      | Ok values r' => Ok (JList values) r'
                      | Err e => Err e
                      | OutOfFuel => OutOfFuel
                      end
                | [] => Err Malformed
                end
            end
          else if (c =? 110) && startswith s (py "null") then
            Ok JNull (skipn 4 s)
          else if (c =? 116) && startswith s (py "true") then
            Ok (JBool true) (skipn 4 s)
          else if (c =? 102) && startswith s (py "false") then
            Ok (JBool false) (skipn 5 s)
          else
            match scan_number L s with
            | Some number => number
            | None =>
                if (c =? 78) && startswith s (py "NaN") then
                  Ok (JConst NaN) (skipn 3 s)
                else if (c =? 73) && startswith s (py "Infinity") then
                  Ok (JConst PosInfinity) (skipn 8 s)
                else if (c =? 45) && startswith s (py "-Infinity") then
                  Ok (JConst NegInfinity) (skipn 9 s)
                else Err Malformed
            end
      end
  end

(** entered at a value; after it, [']'] ends the array and [','] leads
    to the next value *)
with array_items (L : limits) (depth fuel : nat) (s : str) {struct fuel}
  : res (list json) :=
  match fuel with
  | O => OutOfFuel
  | S fuel' =>
      match scan_once L depth fuel' s with
      | Ok v r =>
          match skip_ws r with
          | c :: r' =>
              if c =? 93 then Ok [v] r'
              else if c =? 44 then
                match array_items L depth fuel' (skip_ws r') with
                | Ok vs r'' => Ok (v :: vs) r''
                | Err e => Err e
                | OutOfFuel => OutOfFuel
                end
              else Err Malformed
          | [] => Err Malformed
          end
      | Err e => Err e
      | OutOfFuel => OutOfFuel
      end
  end

(** entered after the opening quote of a key *)
with object_items (L : limits) (depth fuel : nat) (s : str) {struct fuel}
  : res (list (str * json)) :=
  match fuel with
  | O => OutOfFuel
  | S fuel' =>
      match scanstring (S (length s)) s with
      | Ok key r =>
          match skip_ws r with
          | c :: r1 =>
              if c =? 58 then
                match scan_once L depth fuel' (skip_ws r1) with
                | Ok v r2 =>
                    match skip_ws r2 with
                    | d :: r3 =>
                        if d =? 125 then Ok [(key, v)] r3
                        else if d =? 44 then
                          match skip_ws r3 with
                          | q :: r4 =>
                              if q =? 34 then
                                match object_items L depth fuel' r4 with
                                | Ok ps r5 => Ok ((key, v) :: ps) r5
                                | Err e => Err e
                                | OutOfFuel => OutOfFuel
                                end
                              else Err Malformed
                          | [] => Err Malformed
                          end
                        else Err Malformed
                    | [] => Err Malformed
                    end
                | Err e => Err e
                | OutOfFuel => OutOfFuel
                end
              else Err Malformed
          | [] => Err Malformed
          end
      | Err e => Err e
      | OutOfFuel => OutOfFuel
      end
  end.

(** The budget [loads] gives the scanner: more than it can use. *)
Definition budget (s : str) : nat := 2 * length s + 2.

(** [JSONDecoder.decode]: leading whitespace, one value, trailing
    whitespace, nothing else. *)
Definition decode (L : limits) (s : str) : res json :=
  match scan_once L (max_depth L) (budget s) (skip_ws s) with
  | Ok v r =>
      match skip_ws r with
      | [] => Ok v []
      | _ :: _ => Err Malformed
      end
  | Err e => Err e
  | OutOfFuel => OutOfFuel
  end.

(** What [json.loads(s)] does: it returns a value or it raises. *)
Inductive loaded :=
| Decoded (v : json)
| Failed (e : failure).

(** [json.loads(s)] for a [str], on an interpreter with the limits [L].
    (A leading U+FEFF, which [loads] rejects by a test of its own, is
    rejected by the scanner here.) *)
Definition loads (L : limits) (s : str) : loaded :=
  match decode L s with
  | Ok v _ => Decoded v
  | Err e => Failed e
  | OutOfFuel => Failed Malformed
  end.

End Json.

Import Json.

(* ================================================================== *)
(** * Effects: exceptions, the world, the monad of coroutines *)
(* ================================================================== *)

Module Effects.

(** Instances of Python's [Exception]: what [except Exception] catches.
    ([JSONDecodeError] is a [ValueError]; [ValueError] here is one that
    is not a [JSONDecodeError].) *)
Inductive exn :=
| AttributeError
| TypeError
| JSONDecodeError
| RecursionError
| ValueError
| ClientConnectionError
| TimeoutError
| ContentTypeError.

Definition is_JSONDecodeError (e : exn) : bool :=
  match e with JSONDecodeError => true | _ => false end.

(** The two [BaseException]s of [main.py] that are not [Exception]s. *)
Inductive signal :=
| KeyboardInterrupt
| SystemExit (code : Z).

(** A Python object: a value of the JSON types, or any other object
    (one without [get], [strip] or a JSON serialisation). *)
Inductive pyval :=
| Json (j : json)
| Opaque (tag : N).

(** ** Requests to the model backend *)

Inductive endpoint := ApiGenerate | ApiEmbeddings.

(** The prompts are the string constants and f-strings of
    [ollama_client.py]; a constructor stands for each template. *)
Inductive prompt_text :=
| ExtractionPrompt (event_text : str)
| AnalysisPrompt (events_summary : str)
| EmbeddingText (text : str).

Inductive system_text :=
| ExtractionSystem
| AnalysisSystem
| NoSystem.

Record request := {
  req_endpoint : endpoint;
  req_model : str;
  req_prompt : prompt_text;
  req_system : system_text
}.

(** What [response.json()] does: raise, or return the decoded body. *)
Inductive body :=
| BodyRaises (e : exn)
| BodyJson (j : json).

(** What [session.post] does: raise (connection refused, timeout), or
    give a response with a status and a body. *)
Inductive http_reply :=
| PostRaises (e : exn)
| Response (status : Z) (b : body).

(** ** Log records *)

Inductive level := DEBUG | INFO | WARNING | ERROR.

Inductive message :=
(* ollama_client.py *)
| OllamaApiError (status : Z)
| ErrorCallingOllama (e : exn)
| OllamaEmbeddingError (status : Z)
| ErrorGeneratingEmbeddings (e : exn)
| FailedToParseResponse (e : exn)
| ResponseWas (response : str)
(* main.py *)
| MissingEnvironmentVariables (vars : list str)
| AllEnvironmentVariablesSet
| TestingConnection (service : str)
| ConnectionSuccessful (service : str)
| ConnectionFailed (service : str) (e : exn)
| InitializingServices
| AllServicesInitialized
| SomeServicesFailed
| ProcessingSensorData (data : pyval)
| ProcessedData (sensor_type device_id : json)
| ErrorProcessingSensorData (e : exn)
| InsightsGenerated
| ErrorGeneratingInsights (e : exn)
| StartingProcessingCycle (now : str)
| ProcessingCycleCompleted
| ErrorInProcessingCycle (e : exn)
| StartingEngine
| EnvironmentCheckFailed
| CycleNumber (n : nat)
| ShutdownSignalReceived
| FatalError (e : exn)
| EngineStopped.

(** ** The environment and the world *)

(** What the program cannot choose: the backend's reply to a request
    (given all the requests so far, this one first), the environment
    variables, the readings of the clock, whether Ctrl-C arrives during
    the n-th sleep, and the limits of the interpreter it runs on. *)
Record environment := {
  backend : list request -> http_reply;
  getenv : str -> option str;
  clock : nat -> str;
  sigint : nat -> bool;
  interpreter : limits
}.

(** What the program changes: the requests it has sent (latest first),
    the log (oldest first), the number of clock readings and of sleeps,
    and the writes it has issued to the graph store (oldest first). *)
Record world := {
  sent : list request;
  log : list (level * message);
  readings : nat;
  sleeps : nat;
  graph : list json
}.

Definition empty_world : world :=
  {| sent := []; log := []; readings := 0; sleeps := 0; graph := [] |}.

(** How a coroutine ends: it returns, an [Exception] propagates out of
    it, a signal does, or (for the endless loop of [run]) the budget of
    iterations is used up while it is still running. *)
Inductive outcome (A : Type) :=
| Returned (a : A)
| Raised (e : exn)
| Signalled (s : signal)
| StillRunning.
Arguments Raised {A}.
Arguments Signalled {A}.
Arguments StillRunning {A}.

Definition M (A : Type) : Type := world -> outcome A * world.

Definition ret {A} (a : A) : M A := fun w => (Returned a, w).

Definition bind {A B} (c : M A) (k : A -> M B) : M B :=
  fun w =>
    match c w with
    | (Returned a, w') => k a w'
    | (Raised e, w') => (Raised e, w')
    | (Signalled s, w') => (Signalled s, w')
    | (StillRunning, w') => (StillRunning, w')
    end.

Definition raise {A} (e : exn) : M A := fun w => (Raised e, w).

(** [sys.exit(code)] raises [SystemExit]. *)
Definition sys_exit {A} (code : Z) : M A :=
  fun w => (Signalled (SystemExit code), w).

(** [try: c  except E as e: h e], [E] the class [catches] recognises. *)
Definition try_except {A} (catches : exn -> bool) (c : M A) (h : exn -> M A)
  : M A :=
  fun w =>
    match c w with
    | (Raised e, w') => if catches e then h e w' else (Raised e, w')
    | r => r
    end.

Definition Exception (e : exn) : bool := true.

(** [try: c  except KeyboardInterrupt: h1  except Exception as e: h2 e]:
    what a handler raises is not handled by the other clause. *)
Definition try_except_interrupt {A} (c : M A) (h1 : M A) (h2 : exn -> M A)
  : M A :=
  fun w =>
    match c w with
    | (Signalled KeyboardInterrupt, w') => h1 w'
    | (Raised e, w') => h2 e w'
    | r => r
    end.

(** [try: c  finally: f] *)
Definition try_finally {A} (c : M A) (f : M unit) : M A :=
  fun w =>
    match c w with
    | (StillRunning, w') => (StillRunning, w')
    | (o, w') =>
        match f w' with
        | (Returned _, w'') => (o, w'')
        | (Raised e, w'') => (Raised e, w'')
        | (Signalled s, w'') => (Signalled s, w'')
        | (StillRunning, w'') => (StillRunning, w'')
        end
    end.

Declare Scope py_scope.
Delimit Scope py_scope with py.
Notation "x <- c ;; k" := (bind c (fun x => k))
  (at level 61, c at next level, right associativity) : py_scope.
Notation "c ;; k" := (bind c (fun _ => k))
  (at level 61, right associativity) : py_scope.

(** [logging.<level>(message)] *)
Definition logging (l : level) (m : message) : M unit :=
  fun w =>
    (Returned tt,
     {| sent := sent w; log := log w ++ [(l, m)]; readings := readings w;
        sleeps := sleeps w; graph := graph w |}).

(** [obj.get(key, default)]: a method of dicts only. *)
Definition py_get (obj : pyval) (key : str) (default : json) : M json :=
  match obj with
  | Json (JDict d) =>
      ret (match dict_lookup key d with Some v => v | None => default end)
  | _ => raise AttributeError
  end.

(** [obj.strip()] and [obj.split(sep)]: methods of strings only. *)
Definition py_strip (obj : json) : M str :=
  match obj with
  | JStr s => ret (strip s)
  | _ => raise AttributeError
  end.

Definition py_split (obj : json) (sep : N) : M (list str) :=
  match obj with
  | JStr s => ret (split sep s)
  | _ => raise AttributeError
  end.

(** The exception a failed decoding raises. *)
Definition exception_of (e : failure) : exn :=
  match e with
  | Malformed => JSONDecodeError
  | TooDeep => RecursionError
  | TooLong => ValueError
  end.

(** [json.loads(s)] *)
Definition json_loads (L : limits) (s : str) : M json :=
  match loads L s with
  | Decoded v => ret v
  | Failed e => raise (exception_of e)
  end.

(** [json.dumps(obj, indent=2)]: [TypeError] on an object that is not
    of the JSON types. Its text is not modelled: the only caller drops
    it. *)
Definition json_dumps (obj : pyval) : M unit :=
  match obj with
  | Json _ => ret tt
  | Opaque _ => raise TypeError
  end.

End Effects.

Import Effects.
Local Open Scope py_scope.

(* ================================================================== *)
(** * [ollama_client.py] *)
(* ================================================================== *)

Module OllamaClient.

Record client := {
  base_url : str;
  model : str;
  embed_model : str
}.

(** [OllamaClient()] with the defaults of [__init__]. *)
Definition default_client : client :=
  {| base_url := py "http://ollama:11434";
     model := py "llama3.2:3b";
     embed_model := py "nomic-embed-text" |}.

(** The value returned when the response is not JSON. *)
Definition empty_result : json :=
  JDict [(py "entities", JList []); (py "relationships", JList [])].

Section WithEnvironment.

Variable E : environment.
Variable self : client.

(** [async with session.post(url, json=payload) as response]: the
    request leaves, the backend answers. *)
Definition post (r : request) : M (Z * body) :=
  fun w =>
    let w' := {| sent := r :: sent w; log := log w;
                 readings := readings w; sleeps := sleeps w;
                 graph := graph w |} in
    match backend E (r :: sent w) with
    | PostRaises e => (Raised e, w')
    | Response status b => (Returned (status, b), w')
    end.

(** [await response.json()] *)
Definition response_json (b : body) : M json :=
  match b with
  | BodyRaises e => raise e
  | BodyJson j => ret j
  end.

Definition generate_completion (prompt : prompt_text)
    (system_prompt : system_text) : M json :=
  try_except Exception
    (response <- post {| req_endpoint := ApiGenerate;
                         req_model := model self;
                         req_prompt := prompt;
                         req_system := system_prompt |} ;;
     if (fst response =? 200)%Z then
       result <- response_json (snd response) ;;
       py_get (Json result) (py "response") (JStr [])
     else
       logging ERROR (OllamaApiError (fst response)) ;;
       ret (JStr []))
    (fun e =>
       logging ERROR (ErrorCallingOllama e) ;;
       ret (JStr [])).

Definition generate_embeddings (text : str) : M json :=
  try_except Exception
    (response <- post {| req_endpoint := ApiEmbeddings;
                         req_model := embed_model self;
                         req_prompt := EmbeddingText text;
                         req_system := NoSystem |} ;;
     if (fst response =? 200)%Z then
       result <- response_json (snd response) ;;
       py_get (Json result) (py "embedding") (JList [])
     else
       logging ERROR (OllamaEmbeddingError (fst response)) ;;
       ret (JList []))
    (fun e =>
       logging ERROR (ErrorGeneratingEmbeddings e) ;;
       ret (JList [])).

(** The clean-up of the response: the two [startswith] tests and the
    slices [response[7:-3]] and [response[3:-3]]. *)
Definition strip_fences (response : str) : str :=
  if startswith response (py "```json") then slice 7 3 response
  else if startswith response (py "```") then slice 3 3 response
  else response.

(** In the [try] block only [json.loads] can raise [JSONDecodeError],
    and [response] then holds the cleaned text: the handler is
    attached there. *)
Definition extract_entities_and_relationships (event_text : str)
  : M json :=
  response <- generate_completion (ExtractionPrompt event_text)
                ExtractionSystem ;;
  response <- py_strip response ;;
  let response := strip_fences response in
  try_except is_JSONDecodeError
    (json_loads (interpreter E) response)
    (fun e =>
       logging ERROR (FailedToParseResponse e) ;;
       logging ERROR (ResponseWas response) ;;
       ret empty_result).

(** The list comprehension of [analyze_patterns] and its [[:10]]. *)
Definition insights_of (lines : list str) : list str :=
  firstn 10
    (map strip
       (filter (fun insight =>
                  truthy (strip insight)
                  && negb (startswith (strip insight) (py "#")))
               lines)).

Definition analyze_patterns (events_summary : str) : M (list str) :=
  response <- generate_completion (AnalysisPrompt events_summary)
                AnalysisSystem ;;
  lines <- py_split response LF ;;
  ret (insights_of lines).

End WithEnvironment.

End OllamaClient.

Import OllamaClient.

(* ================================================================== *)
(** * [main.py]: the Graphiti engine *)
(* ================================================================== *)

Module Engine.

Section WithEnvironment.

Variable E : environment.

(** [datetime.now()], read as text. *)
Definition datetime_now : M str :=
  fun w =>
    (Returned (clock E (readings w)),
     {| sent := sent w; log := log w; readings := S (readings w);
        sleeps := sleeps w; graph := graph w |}).

(** [await asyncio.sleep(60)]: Ctrl-C may arrive while the loop
    sleeps. *)
Definition asyncio_sleep : M unit :=
  fun w =>
    let w' := {| sent := sent w; log := log w; readings := readings w;
                 sleeps := S (sleeps w); graph := graph w |} in
    if sigint E (sleeps w) then (Signalled KeyboardInterrupt, w')
    else (Returned tt, w').

Definition required_vars : list str :=
  [py "NEO4J_URI"; py "NEO4J_USERNAME"; py "NEO4J_PASSWORD";
   py "KAFKA_BOOTSTRAP_SERVERS"; py "OLLAMA_BASE_URL"].

(** [not os.getenv(var)] *)
Definition unset (var : str) : bool :=
  match getenv E var with
  | Some v => negb (truthy v)
  | None => true
  end.

Definition check_environment : M bool :=
  let missing_vars := filter unset required_vars in
  match missing_vars with
  | _ :: _ =>
      logging ERROR (MissingEnvironmentVariables missing_vars) ;;
      ret false
  | [] =>
      logging INFO AllEnvironmentVariablesSet ;;
      ret true
  end.

(** [test_neo4j_connection], [test_kafka_connection] and
    [test_ollama_connection]: the same placeholder for three
    services. *)
Definition test_connection (service : str) : M bool :=
  try_except Exception
    (logging INFO (TestingConnection service) ;;
     logging INFO (ConnectionSuccessful service) ;;
     ret true)
    (fun e =>
       logging ERROR (ConnectionFailed service e) ;;
       ret false).

(** [asyncio.gather] of three coroutines that never suspend: they run
    one after the other. *)
Definition initialize_services : M bool :=
  logging INFO InitializingServices ;;
  neo4j <- test_connection (py "Neo4j") ;;
  kafka <- test_connection (py "Kafka") ;;
  ollama <- test_connection (py "Ollama") ;;
  if neo4j && kafka && ollama then
    logging INFO AllServicesInitialized ;;
    ret true
  else
    logging WARNING SomeServicesFailed ;;
    ret false.

(** The graph is not written: creating the relationships and storing
    the results are comments in the source. *)
Definition process_sensor_data (data : pyval) : M unit :=
  try_except Exception
    (logging DEBUG (ProcessingSensorData data) ;;
     device_id <- py_get data (py "device_id") JNull ;;
     sensor_type <- py_get data (py "sensor_type") JNull ;;
     value <- py_get data (py "value") JNull ;;
     now <- datetime_now ;;
     timestamp <- py_get data (py "timestamp") (JStr now) ;;
     logging INFO (ProcessedData sensor_type device_id))
    (fun e => logging ERROR (ErrorProcessingSensorData e)).

Definition generate_insights (context : pyval) : M json :=
  try_except Exception
    (json_dumps context ;;
     now <- datetime_now ;;
     let insights :=
       JDict [(py "timestamp", JStr now);
              (py "energy_efficiency", JStr (py "Normal patterns detected"));
              (py "security_status", JStr (py "All systems secure"));
              (py "recommendations",
               JList [JStr (py "Optimize heating schedule");
                      JStr (py "Update motion sensor sensitivity")])] in
     logging INFO InsightsGenerated ;;
     ret insights)
    (fun e =>
       logging ERROR (ErrorGeneratingInsights e) ;;
       ret (JDict [])).

Definition sample_data (now : str) : json :=
  JDict [(py "device_id", JStr (py "temp_sensor_01"));
         (py "sensor_type", JStr (py "temperature"));
         (py "value", JFloat (py "22.5"));
         (py "location", JStr (py "living_room"));
         (py "timestamp", JStr now)].

Definition run_processing_cycle : M unit :=
  try_except Exception
    (started <- datetime_now ;;
     logging INFO (StartingProcessingCycle started) ;;
     now <- datetime_now ;;
     process_sensor_data (Json (sample_data now)) ;;
     let context :=
       Json (JDict [(py "recent_data", JList [sample_data now])]) in
     insights <- generate_insights context ;;
     logging INFO ProcessingCycleCompleted)
    (fun e => logging ERROR (ErrorInProcessingCycle e)).

(** [while True:] for at most [iterations] rounds; the loop is then
    still running. *)
Fixpoint main_loop (iterations : nat) (cycle_count : nat) : M unit :=
  match iterations with
  | O => fun w => (StillRunning, w)
  | S iterations' =>
      let cycle_count := S cycle_count in
      logging INFO (CycleNumber cycle_count) ;;
      run_processing_cycle ;;
      asyncio_sleep ;;
      main_loop iterations' cycle_count
  end.

Definition run (iterations : nat) : M unit :=
  logging INFO StartingEngine ;;
  ok <- check_environment ;;
  if negb ok then
    logging ERROR EnvironmentCheckFailed ;;
    sys_exit 1
  else
    initialize_services ;;
    try_finally
      (try_except_interrupt
         (main_loop iterations 0)
         (logging INFO ShutdownSignalReceived)
         (fun e =>
            logging ERROR (FatalError e) ;;
            sys_exit 1))
      (logging INFO EngineStopped).

End WithEnvironment.

End Engine.

Import Engine.

(* ================================================================== *)
(** * Concurrent extractions *)
(* ================================================================== *)

(** Several tasks, each running [generate_completion]. A coroutine gives
    way to the event loop only where it awaits: the event loop may resume
    any task that can move. [generate_completion] posts its request as
    soon as it is resumed -- it takes no semaphore, lock or queue slot
    first -- and is in flight until the reply has come. *)
Module Tasks.

Inductive task_state :=
| Pending          (* created, not yet resumed *)
| InFlight         (* inside [async with session.post(...)] *)
| Finished.        (* returned *)

Definition pool := list task_state.

Inductive task_step : task_state -> task_state -> Prop :=
| step_post : task_step Pending InFlight
| step_reply : task_step InFlight Finished.

(** One task of the pool moves. *)
Inductive pool_step : pool -> pool -> Prop :=
| pool_here : forall t t' rest,
    task_step t t' -> pool_step (t :: rest) (t' :: rest)
| pool_there : forall t rest rest',
    pool_step rest rest' -> pool_step (t :: rest) (t :: rest').

Definition reachable : pool -> pool -> Prop :=
  clos_refl_trans_1n pool pool_step.

Definition is_in_flight (t : task_state) : bool :=
  match t with InFlight => true | _ => false end.

Definition in_flight (p : pool) : nat :=
  length (filter is_in_flight p).

(** [n] extractions waiting to run. *)
Definition pending (n : nat) : pool := repeat Pending n.

(** The bound the specification asks for. *)
Definition bounded_by (K : nat) (start : pool) : Prop :=
  forall p, reachable start p -> in_flight p <= K.

End Tasks.

(* ================================================================== *)
(** * The Entity Resolver *)
(* ================================================================== *)

(** The source has no entity resolution: the definitions of this module
    follow section 4.3 of the specification. *)
Module Resolver.

Local Open Scope N_scope.

(** Modelled from the spec: casefolding of one character (absent from
    the source). It is that of the ASCII letters; other code points are
    kept. *)
Definition casefold_char (c : N) : N :=
  if (65 <=? c) && (c <=? 90) then c + 32 else c.

(** Modelled from the spec: casefolding of a name (absent from the
    source). *)
Definition casefold (s : str) : str := map casefold_char s.

(** Modelled from the spec: the collapse of whitespace (absent from the
    source) -- every run of whitespace becomes one space. *)
Fixpoint collapse_whitespace (s : str) : str :=
  match s with
  | [] => []
  | c :: s' =>
      if isspace c then
        match s' with
        | d :: _ =>
            if isspace d then collapse_whitespace s'
            else 32 :: collapse_whitespace s'
        | [] => [32]
        end
      else c :: collapse_whitespace s'
  end.

(** Modelled from the spec: the canonical key of a raw entity name
    (absent from the source) -- trim, casefold, collapse whitespace. *)
Definition canonical_key (raw_name : str) : str :=
  collapse_whitespace (casefold (strip raw_name)).

(** Modelled from the spec: an Entity Node (absent from the source), with
    the attributes that resolution reads. *)
Record entity_node := {
  node_id : nat;
  canonical_name : str;
  node_type : str
}.

Section WithSimilarity.

(** Whether the embedding of a canonical key is within the threshold
    of a node's embedding (a node's embedding follows its canonical
    name, section 3): the embeddings come from the model backend and
    the cosine similarity is a floating-point computation, both outside
    this development. *)
Variable similar : str -> entity_node -> bool.

(** Modelled from the spec: an identifier no node of the graph has
    (absent from the source). *)
Definition fresh_id (g : list entity_node) : nat :=
  S (fold_right (fun n m => Nat.max (node_id n) m) 0%nat g).

(** Modelled from the spec: the resolution of one raw entity (absent
    from the source) -- an exact match on the canonical key, else a
    similar node of the same declared type, else a new node. It
    returns the identifier of the node and the graph's nodes. *)
Definition resolve (g : list entity_node) (raw_name type : str)
  : nat * list entity_node :=
  let key := canonical_key raw_name in
  match find (fun n => str_eqb (canonical_name n) key) g with
  | Some n => (node_id n, g)
  | None =>
      match find (fun n => str_eqb (node_type n) type && similar key n) g
      with
      | Some n => (node_id n, g)
      | None =>
          let id := fresh_id g in
          (id, g ++ [{| node_id := id; canonical_name := key;
                        node_type := type |}])
      end
  end.

End WithSimilarity.

End Resolver.

(* ================================================================== *)
(** * The properties of the specification, and inputs to try them on *)
(* ================================================================== *)

Module Spec.

(** The request [extract_entities_and_relationships] sends. *)
Definition extraction_request (self : client) (event_text : str) : request :=
  {| req_endpoint := ApiGenerate;
     req_model := model self;
     req_prompt := ExtractionPrompt event_text;
     req_system := ExtractionSystem |}.

Definition analysis_request (self : client) (events_summary : str) : request :=
  {| req_endpoint := ApiGenerate;
     req_model := model self;
     req_prompt := AnalysisPrompt events_summary;
     req_system := AnalysisSystem |}.

(** The number of requests a computation sends from a world. *)
Definition requests_sent {A} (c : M A) (w : world) : nat :=
  length (sent (snd (c w))) - length (sent w).

(** Section 4.1, the retry policy: against a backend whose every call
    fails in transport, the extraction gives up only when it has made
    all its [attempts] calls. *)
Definition exhausts_attempts (attempts : nat) (E : environment)
    (self : client) : Prop :=
  forall event_text w,
    (forall history, exists e, backend E history = PostRaises e) ->
    requests_sent (extract_entities_and_relationships E self event_text) w
    = attempts.

(** Whitespace only: what may surround a JSON text. *)
Definition blank (w : str) : Prop := forallb is_ws w = true.

(** A fenced code block around [inner]: the opening fence, with or
    without the language tag, and the closing fence. *)
Definition fenced (tagged : bool) (inner : str) : str :=
  (if tagged then py "```json" else py "```") ++ inner ++ py "```".

(** The lines of a response that [analyze_patterns] keeps, before the
    cut at ten. *)
Definition candidate (line : str) : bool :=
  truthy (strip line) && negb (startswith (strip line) (py "#")).

(** The world after a request, a log record, a reading of the clock, a
    sleep. *)
Definition with_request (r : request) (w : world) : world :=
{| sent := r :: sent w; log := log w; readings := readings w;
   sleeps := sleeps w; graph := graph w |}.

Definition with_log (l : level) (m : message) (w : world) : world :=
{| sent := sent w; log := log w ++ [(l, m)]; readings := readings w;
   sleeps := sleeps w; graph := graph w |}.

Definition with_reading (w : world) : world :=
{| sent := sent w; log := log w; readings := S (readings w);
   sleeps := sleeps w; graph := graph w |}.

Definition with_sleep (w : world) : world :=
{| sent := sent w; log := log w; readings := readings w;
   sleeps := S (sleeps w); graph := graph w |}.

(** [isinstance(data, dict)] *)
Definition is_dict (data : pyval) : bool :=
match data with Json (JDict _) => true | _ => false end.

(** A result of the scanner that input after the text cannot change: a
    value, or one of the interpreter's two limits reached. *)
Definition settled {A} (R : res A) : Prop :=
match R with
| Ok _ _ | Err TooDeep | Err TooLong => True
| Err Malformed | OutOfFuel => False
end.

(** The result on [s ++ w], when [R] is the result on [s]. *)
Definition shift {A} (w : str) (R : res A) : res A :=
match R with
| Ok a r => Ok a (r ++ w)
| _ => R
end.

(** How [json.loads] ends: with the value, or with the exception. *)
Definition delivered (r : loaded) : outcome json :=
match r with
| Decoded v => Returned v
| Failed e => Raised (exception_of e)
end.

(** How the extraction ends after [json.loads]: [JSONDecodeError] is
    caught and replaced by the empty result. *)
Definition extracted (r : loaded) : outcome json :=
match r with
| Failed Malformed => Returned empty_result
| _ => delivered r
end.

End Spec.

Module Examples.

(** CPython 3.11 as it is installed: a recursion limit of 1000, of which
    the frames under the scanner -- the event loop, the coroutine, the
    decoder -- have used twenty; 4300 digits to an integer. *)
Definition cpython : limits :=
  {| max_depth := 980; max_digits := 4300 |}.

(** The same with [sys.set_int_max_str_digits(0)]. *)
Definition any_digits : limits :=
  {| max_depth := 980; max_digits := 0 |}.

Definition quiet (reply : list request -> http_reply) : environment :=
  {| backend := reply;
     getenv := fun _ => None;
     clock := fun _ => py "2024-05-01T12:00:00";
     sigint := fun _ => false;
     interpreter := cpython |}.

(** A backend whose model always says [text]. *)
Definition saying (text : str) : environment :=
  quiet (fun _ => Response 200
                    (BodyJson (JDict [(py "response", JStr text)]))).

(** A backend that cannot be reached. *)
Definition unreachable : environment :=
  quiet (fun _ => PostRaises ClientConnectionError).

(** A backend whose first call times out and whose later calls
    succeed. *)
Definition slow_start (text : str) : environment :=
  quiet (fun history =>
           match history with
           | [_] => PostRaises TimeoutError
           | _ => Response 200
                    (BodyJson (JDict [(py "response", JStr text)]))
           end).

Definition lines (ls : list str) : str :=
  concat (map (fun l => l ++ [LF]) ls).

(** A heading, a blank line and fifteen insight lines. *)
Definition fifteen_insights : str :=
  lines ([py "# Insights"; py "   "]
         ++ map (fun k => py "  insight " ++ [N.of_nat (65 + k)])
              (seq 0 15)).

(** A well-formed extraction result, as the model would write it. *)
Definition one_entity : str :=
  py "{" ++ [DQ] ++ py "entities" ++ [DQ] ++ py ": [{" ++ [DQ] ++ py "name"
  ++ [DQ] ++ py ": " ++ [DQ] ++ py "lamp" ++ [DQ] ++ py "}], " ++ [DQ]
  ++ py "relationships" ++ [DQ] ++ py ": []}".

Definition one_entity_value : json :=
JDict [(py "entities", JList [JDict [(py "name", JStr (py "lamp"))]]);
       (py "relationships", JList [])].

(** Every required variable set. *)
Definition configured : environment :=
  {| backend := fun _ => PostRaises ClientConnectionError;
     getenv := fun _ => Some (py "set");
     clock := fun _ => py "2024-05-01T12:00:00";
     sigint := fun _ => false;
     interpreter := cpython |}.


(** An integer of 4301 digits. *)
Definition ones : str := repeat 49%N 4301.

End Examples.

Import Spec.

(* ================================================================== *)
(** * [main.py]: the configuration *)
(* ================================================================== *)

Module Startup.

(** The one record [_load_config] logs. *)
Inductive config_message := ConfigurationLoaded.

Section WithEnvironment.

Variable E : environment.

(** [os.getenv(key, default)]: the default stands in for a variable that
    is not set, not for one that is set to the empty string. *)
Definition getenv_default (key default : str) : str :=
  match getenv E key with
  | Some v => v
  | None => default
  end.

(** [_load_config]: the configuration, and the record it logs at level
    INFO. *)
Definition _load_config : json * list (level * config_message) :=
  let config :=
    JDict
      [(py "neo4j",
        JDict [(py "uri",
                JStr (getenv_default (py "NEO4J_URI")
                        (py "bolt://neo4j:7687")));
               (py "username",
                JStr (getenv_default (py "NEO4J_USERNAME") (py "neo4j")));
               (py "password",
                JStr (getenv_default (py "NEO4J_PASSWORD")
                        (py "smarthome123")))]);
       (py "kafka",
        JDict [(py "bootstrap_servers",
                JStr (getenv_default (py "KAFKA_BOOTSTRAP_SERVERS")
                        (py "kafka:9092")));
               (py "topics",
                JList [JStr (py "sensor_data"); JStr (py "device_events");
                       JStr (py "user_interactions")])]);
       (py "ollama",
        JDict [(py "base_url",
                JStr (getenv_default (py "OLLAMA_BASE_URL")
                        (py "http://ollama:11434")));
               (py "model",
                JStr (getenv_default (py "OLLAMA_MODEL") (py "llama3.2:3b")));
               (py "embed_model",
                JStr (getenv_default (py "OLLAMA_EMBED_MODEL")
                        (py "nomic-embed-text")))])] in
  (config, [(INFO, ConfigurationLoaded)]).

End WithEnvironment.

(** [config[section][key]] *)
Definition config_entry (config : json) (section key : str) : option json :=
  match config with
  | JDict d =>
      match dict_lookup section d with
      | Some (JDict d') => dict_lookup key d'
      | _ => None
      end
  | _ => None
  end.

(** Where the configuration keeps each required variable. *)
Definition config_place (var : str) : option (str * str) :=
  if str_eqb var (py "NEO4J_URI") then Some (py "neo4j", py "uri")
  else if str_eqb var (py "NEO4J_USERNAME") then
    Some (py "neo4j", py "username")
  else if str_eqb var (py "NEO4J_PASSWORD") then
    Some (py "neo4j", py "password")
  else if str_eqb var (py "KAFKA_BOOTSTRAP_SERVERS") then
    Some (py "kafka", py "bootstrap_servers")
  else if str_eqb var (py "OLLAMA_BASE_URL") then
    Some (py "ollama", py "base_url")
  else None.

End Startup.

(* ================================================================== *)
(** * Further properties, and inputs to try them on *)
(* ================================================================== *)

Module Behaviour.

(** The requests of the client's two operations. *)
Definition completion_request (self : client) (prompt : prompt_text)
    (system_prompt : system_text) : request :=
  {| req_endpoint := ApiGenerate;
     req_model := model self;
     req_prompt := prompt;
     req_system := system_prompt |}.

Definition embeddings_request (self : client) (text : str) : request :=
  {| req_endpoint := ApiEmbeddings;
     req_model := embed_model self;
     req_prompt := EmbeddingText text;
     req_system := NoSystem |}.

(** The field [key] of a reply with status 200 whose body is a dict that
    has the field. *)
Definition reply_field (key : str) (reply : http_reply) : option json :=
  match reply with
  | Response status (BodyJson (JDict d)) =>
      if (status =? 200)%Z then dict_lookup key d else None
  | _ => None
  end.

(** The opening fence of a code block, with or without the tag. *)
Definition opening_fence (tagged : bool) : str :=
  if tagged then py "```json" else py "```".

Definition is_str (v : json) : bool :=
  match v with JStr _ => true | _ => false end.

(** The numbers of the cycles a log announces. *)
Fixpoint cycle_numbers (l : list (level * message)) : list nat :=
  match l with
  | [] => []
  | (_, CycleNumber n) :: l' => n :: cycle_numbers l'
  | _ :: l' => cycle_numbers l'
  end.

(** The records of the levels WARNING and ERROR. *)
Definition is_alarm (entry : level * message) : bool :=
  match fst entry with
  | WARNING | ERROR => true
  | _ => false
  end.

(** What one processing cycle logs; it reads the clock four times, from
    the reading [r] on. *)
Definition cycle_trace (E : environment) (r : nat) : list (level * message) :=
  [(INFO, StartingProcessingCycle (clock E r));
   (DEBUG, ProcessingSensorData (Json (sample_data (clock E (S r)))));
   (INFO, ProcessedData (JStr (py "temperature")) (JStr (py "temp_sensor_01")));
   (INFO, InsightsGenerated);
   (INFO, ProcessingCycleCompleted)].

(** What one round of the main loop logs: its number, then the records
    of the cycle. *)
Definition round_trace (E : environment) (number r : nat)
  : list (level * message) :=
  (INFO, CycleNumber number) :: cycle_trace E r.

(** The world after a round that began in [w]. *)
Definition after_round (E : environment) (number : nat) (w : world) : world :=
  {| sent := sent w;
     log := log w ++ round_trace E number (readings w);
     readings := 4 + readings w;
     sleeps := S (sleeps w);
     graph := graph w |}.

(** The rounds [first], [first + 1], ... ([count] of them) of a loop whose
    clock stands at the reading [r]. *)
Fixpoint rounds_trace (E : environment) (count first r : nat)
  : list (level * message) :=
  match count with
  | O => []
  | S count' =>
      round_trace E first r ++ rounds_trace E count' (S first) (4 + r)
  end.

(** What [run] logs before its loop when the environment is complete. *)
Definition startup_trace : list (level * message) :=
  [(INFO, StartingEngine);
   (INFO, AllEnvironmentVariablesSet);
   (INFO, InitializingServices);
   (INFO, TestingConnection (py "Neo4j"));
   (INFO, ConnectionSuccessful (py "Neo4j"));
   (INFO, TestingConnection (py "Kafka"));
   (INFO, ConnectionSuccessful (py "Kafka"));
   (INFO, TestingConnection (py "Ollama"));
   (INFO, ConnectionSuccessful (py "Ollama"));
   (INFO, AllServicesInitialized)].

End Behaviour.

Module MoreExamples.

(** A backend whose reply has the given value in its field
    ["response"]. *)
Definition answering (v : json) : environment :=
  Examples.quiet
    (fun _ => Response 200 (BodyJson (JDict [(py "response", v)]))).

(** Two lines of spaces. *)
Definition blank_lines : str := py "  " ++ [LF] ++ py " " ++ [LF].

(** A backend that answers with the given status and an empty body. *)
Definition failing (status : Z) : environment :=
  Examples.quiet (fun _ => Response status (BodyJson (JDict []))).

(** Every variable set, [NEO4J_URI] to the empty string. *)
Definition empty_uri : environment :=
  {| backend := fun _ => PostRaises ClientConnectionError;
     getenv := fun var =>
                 if str_eqb var (py "NEO4J_URI") then Some []
                 else Some (py "set");
     clock := fun _ => py "2024-05-01T12:00:00";
     sigint := fun _ => false;
     interpreter := Examples.cpython |}.

End MoreExamples.

Import Behaviour.

Unset Implicit Arguments.

(* ================================================================== *)
(** * Strings *)
(* ================================================================== *)

Section StringFacts.

Local Open Scope N_scope.

Lemma str_eqb_refl : forall s, str_eqb s s = true.
Proof.
  induction s as [|c s IH]; simpl; [reflexivity|].
  now rewrite N.eqb_refl, IH.
Qed.

Lemma startswith_app : forall p s, startswith (p ++ s) p = true.
Proof.
  induction p as [|a p IH]; intros s; simpl; [reflexivity|].
  now rewrite N.eqb_refl, IH.
Qed.

Lemma lstrip_spaces : forall o s,
  forallb isspace o = true -> lstrip (o ++ s) = lstrip s.
Proof.
  induction o as [|c o IH]; intros s H; simpl in *; [reflexivity|].
  apply andb_true_iff in H as [Hc Ho]. rewrite Hc. now apply IH.
Qed.

Lemma rstrip_spaces : forall s o,
  forallb isspace o = true -> rstrip (s ++ o) = rstrip s.
Proof.
  intros s o H. unfold rstrip. rewrite rev_app_distr.
  rewrite lstrip_spaces; [reflexivity|].
  rewrite forallb_forall in *. intros x Hx. apply H. now apply in_rev.
Qed.

Lemma rstrip_not_space : forall s c,
  isspace c = false -> rstrip (s ++ [c]) = s ++ [c].
Proof.
  intros s c H. unfold rstrip. rewrite rev_app_distr. simpl.
  rewrite H. simpl. now rewrite rev_involutive.
Qed.

(** Stripping a text that begins and ends with characters that are not
    spaces removes exactly the spaces around it. *)
Lemma strip_padded : forall o1 o2 a m b,
  forallb isspace o1 = true -> forallb isspace o2 = true ->
  isspace a = false -> isspace b = false ->
  strip (o1 ++ (a :: m ++ [b]) ++ o2) = a :: m ++ [b].
Proof.
  intros o1 o2 a m b H1 H2 Ha Hb. unfold strip.
  rewrite lstrip_spaces by assumption.
  simpl. rewrite Ha.
  change (a :: (m ++ [b]) ++ o2) with ((a :: m ++ [b]) ++ o2).
  rewrite rstrip_spaces by assumption.
  change (a :: m ++ [b]) with ((a :: m) ++ [b]).
  now apply rstrip_not_space.
Qed.

Lemma slice_middle : forall (p m q : str),
  slice (length p) (length q) (p ++ m ++ q) = m.
Proof.
  intros p m q. unfold slice.
  replace (length (p ++ m ++ q) - length q)%nat with (length (p ++ m))
    by (rewrite !length_app; lia).
  rewrite app_assoc, firstn_app, firstn_all, Nat.sub_diag. simpl.
  rewrite app_nil_r, skipn_app, skipn_all, Nat.sub_diag. reflexivity.
Qed.

Lemma In_firstn : forall (A : Type) n (l : list A) x,
  In x (firstn n l) -> In x l.
Proof.
  intros A n l x H. rewrite <- (firstn_skipn n l).
  apply in_or_app. now left.
Qed.

End StringFacts.

(* ================================================================== *)
(** * The monad *)
(* ================================================================== *)

Section MonadFacts.

Lemma bind_returned : forall A B (c : M A) (k : A -> M B) w a w',
  c w = (Returned a, w') -> bind c k w = k a w'.
Proof. intros. unfold bind. now rewrite H. Qed.

End MonadFacts.

(* ================================================================== *)
(** * The client *)
(* ================================================================== *)

Section ClientFacts.

Variable E : environment.
Variable self : client.

(** What a call of the backend's [/api/generate] comes to, reply by
    reply. *)
Lemma generate_completion_run : forall prompt system_prompt w,
  let r := {| req_endpoint := ApiGenerate; req_model := model self;
              req_prompt := prompt; req_system := system_prompt |} in
  generate_completion E self prompt system_prompt w =
  match backend E (r :: sent w) with
  | PostRaises e =>
      (Returned (JStr []),
       with_log ERROR (ErrorCallingOllama e) (with_request r w))
  | Response status b =>
      if (status =? 200)%Z then
        match b with
        | BodyRaises e =>
            (Returned (JStr []),
             with_log ERROR (ErrorCallingOllama e) (with_request r w))
        | BodyJson (JDict d) =>
            (Returned (match dict_lookup (py "response") d with
                       | Some v => v
                       | None => JStr []
                       end), with_request r w)
        | BodyJson _ =>
            (Returned (JStr []),
             with_log ERROR (ErrorCallingOllama AttributeError)
               (with_request r w))
        end
      else
        (Returned (JStr []),
         with_log ERROR (OllamaApiError status) (with_request r w))
  end.
Proof.
  intros prompt system_prompt w r.
  unfold generate_completion, try_except, bind, post. fold r.
  destruct (backend E (r :: sent w)) as [e|status b]; [reflexivity|].
  simpl. destruct (status =? 200)%Z; [|reflexivity].
  destruct b as [e|j]; [reflexivity|].
  destruct j; reflexivity.
Qed.

Lemma generate_embeddings_run : forall text w,
  let r := {| req_endpoint := ApiEmbeddings; req_model := embed_model self;
              req_prompt := EmbeddingText text; req_system := NoSystem |} in
  generate_embeddings E self text w =
  match backend E (r :: sent w) with
  | PostRaises e =>
      (Returned (JList []),
       with_log ERROR (ErrorGeneratingEmbeddings e) (with_request r w))
  | Response status b =>
      if (status =? 200)%Z then
        match b with
        | BodyRaises e =>
            (Returned (JList []),
             with_log ERROR (ErrorGeneratingEmbeddings e) (with_request r w))
        | BodyJson (JDict d) =>
            (Returned (match dict_lookup (py "embedding") d with
                       | Some v => v
                       | None => JList []
                       end), with_request r w)
        | BodyJson _ =>
            (Returned (JList []),
             with_log ERROR (ErrorGeneratingEmbeddings AttributeError)
               (with_request r w))
        end
      else
        (Returned (JList []),
         with_log ERROR (OllamaEmbeddingError status) (with_request r w))
  end.
Proof.
  intros text w r.
  unfold generate_embeddings, try_except, bind, post. fold r.
  destruct (backend E (r :: sent w)) as [e|status b]; [reflexivity|].
  simpl. destruct (status =? 200)%Z; [|reflexivity].
  destruct b as [e|j]; [reflexivity|].
  destruct j; reflexivity.
Qed.

(** After the completion has returned the text [response], the
    extraction is the decoding of the cleaned text: its value, the empty
    result where the decoder raises [JSONDecodeError], and the
    exception where it raises another. *)
Lemma extract_after_completion : forall event_text w response w1,
  generate_completion E self (ExtractionPrompt event_text) ExtractionSystem w
  = (Returned (JStr response), w1) ->
  extract_entities_and_relationships E self event_text w =
  match loads (interpreter E) (strip_fences (strip response)) with
  | Decoded v => (Returned v, w1)
  | Failed Malformed =>
      (Returned empty_result,
       with_log ERROR (ResponseWas (strip_fences (strip response)))
         (with_log ERROR (FailedToParseResponse JSONDecodeError) w1))
  | Failed e => (Raised (exception_of e), w1)
  end.
Proof.
  intros event_text w response w1 H.
  unfold extract_entities_and_relationships.
  rewrite (@bind_returned _ _ _ _ _ _ _ H). simpl.
  unfold bind, ret, try_except, json_loads.
  destruct (loads (interpreter E) (strip_fences (strip response)))
    as [v|[| |]]; reflexivity.
Qed.

(** A completion that returns something other than a string makes the
    extraction raise: [AttributeError] is not [JSONDecodeError]. *)
Lemma extract_after_non_string : forall event_text w response w1,
  generate_completion E self (ExtractionPrompt event_text) ExtractionSystem w
  = (Returned response, w1) ->
  (forall s, response <> JStr s) ->
  extract_entities_and_relationships E self event_text w
  = (Raised AttributeError, w1).
Proof.
intros event_text w response w1 H Hn.
unfold extract_entities_and_relationships.
rewrite (@bind_returned _ _ _ _ _ _ _ H).
destruct response; try reflexivity.
now destruct (Hn s).
Qed.

Lemma analyze_after_completion : forall events_summary w response w1,
  generate_completion E self (AnalysisPrompt events_summary) AnalysisSystem w
  = (Returned (JStr response), w1) ->
  analyze_patterns E self events_summary w =
  (Returned (insights_of (split LF response)), w1).
Proof.
  intros events_summary w response w1 H.
  unfold analyze_patterns. rewrite (@bind_returned _ _ _ _ _ _ _ H). reflexivity.
Qed.

End ClientFacts.

Section InsightFacts.

Lemma insights_of_length : forall lines, length (insights_of lines) <= 10.
Proof. intros. unfold insights_of. apply firstn_le_length. Qed.

Lemma insights_of_candidates : forall lines,
  insights_of lines = firstn 10 (map strip (filter candidate lines)).
Proof. reflexivity. Qed.

Lemma insights_of_sound : forall lines insight,
  In insight (insights_of lines) ->
  exists line,
    In line lines /\ insight = strip line /\ insight <> []
    /\ startswith insight (py "#") = false.
Proof.
  intros lines insight H. unfold insights_of in H.
  apply In_firstn in H. apply in_map_iff in H as [line [Hs Hin]].
  apply filter_In in Hin as [Hin Hc].
  apply andb_true_iff in Hc as [Ht Hh].
  exists line. subst insight. repeat split; try assumption.
  - intros Hnil. rewrite Hnil in Ht. discriminate.
  - now apply negb_true_iff in Hh.
Qed.

Lemma insights_of_full : forall lines,
  10 <= length (filter candidate lines) -> length (insights_of lines) = 10.
Proof.
  intros lines H. rewrite insights_of_candidates.
  apply firstn_length_le. now rewrite length_map.
Qed.

End InsightFacts.

(* ================================================================== *)
(** * The JSON decoder: its scanners *)
(* ================================================================== *)

Section ScannerFacts.

Local Open Scope N_scope.

Lemma blank_head_not_digit : forall c w, blank (c :: w) -> is_digit c = false.
Proof.
intros c w H. unfold blank in H. simpl in H.
apply andb_true_iff in H as [H _]. unfold is_ws in H. unfold is_digit.
repeat (apply orb_true_iff in H as [H|H]); apply N.eqb_eq in H; subst c;
  reflexivity.
Qed.

Lemma blank_tail : forall c w, blank (c :: w) -> blank w.
Proof.
intros c w H. unfold blank in *. simpl in H.
now apply andb_true_iff in H as [_ H].
Qed.

Lemma blank_head : forall c w, blank (c :: w) -> is_ws c = true.
Proof.
intros c w H. unfold blank in *. simpl in H.
now apply andb_true_iff in H as [H _].
Qed.

Lemma is_ws_isspace : forall c, is_ws c = true -> isspace c = true.
Proof.
intros c H. unfold is_ws in H.
repeat (apply orb_true_iff in H as [H|H]); apply N.eqb_eq in H; subst c;
  reflexivity.
Qed.

(** ** [skip_ws] *)

Lemma skip_ws_length : forall s, (length (skip_ws s) <= length s)%nat.
Proof.
induction s as [|c s IH]; simpl; [lia|].
destruct (is_ws c); simpl; lia.
Qed.

Lemma skip_ws_blank : forall w s, blank w -> skip_ws (w ++ s) = skip_ws s.
Proof.
induction w as [|c w IH]; intros s H; [reflexivity|].
simpl. rewrite (blank_head _ _ H). apply IH. eapply blank_tail; eassumption.
Qed.

Lemma skip_ws_all_blank : forall w, blank w -> skip_ws w = [].
Proof.
intros w H. rewrite <- (app_nil_r w). now rewrite skip_ws_blank.
Qed.

Lemma skip_ws_app : forall s w c r,
  skip_ws s = c :: r -> skip_ws (s ++ w) = c :: r ++ w.
Proof.
induction s as [|d s IH]; intros w c r H; simpl in *; [discriminate|].
destruct (is_ws d); [now apply IH|].
now injection H as -> ->.
Qed.

Lemma skip_ws_app_blank : forall s w,
  skip_ws s = [] -> blank w -> skip_ws (s ++ w) = [].
Proof.
induction s as [|d s IH]; intros w H Hw; simpl in *.
- now apply skip_ws_all_blank.
- destruct (is_ws d); [now apply IH|discriminate].
Qed.

(** ** [startswith] and the literals *)

Lemma startswith_length : forall p s,
  startswith s p = true -> (length p <= length s)%nat.
Proof.
induction p as [|a p IH]; intros s H; simpl in *; [lia|].
destruct s as [|b s]; [discriminate|].
apply andb_true_iff in H as [_ H]. apply IH in H. simpl. lia.
Qed.

(** Whitespace after a text does not complete a prefix that has no
    whitespace in it. *)
Lemma startswith_app_blank : forall p s w,
  forallb (fun c => negb (is_ws c)) p = true -> blank w ->
  startswith (s ++ w) p = startswith s p.
Proof.
induction p as [|a p IH]; intros s w Hp Hw; [reflexivity|].
simpl in Hp. apply andb_true_iff in Hp as [Ha Hp].
destruct s as [|b s]; simpl.
- destruct w as [|c w]; [reflexivity|]. simpl.
  destruct (a =? c) eqn:Hac; [|reflexivity].
  apply N.eqb_eq in Hac. subst c.
  rewrite (blank_head _ _ Hw) in Ha. discriminate.
- now rewrite IH.
Qed.

Lemma skipn_app_le : forall (n : nat) (s w : str),
  (n <= length s)%nat -> skipn n (s ++ w) = skipn n s ++ w.
Proof.
intros n s w H. rewrite skipn_app.
replace (n - length s)%nat with 0%nat by lia. reflexivity.
Qed.

(** ** Numbers *)

Lemma span_digits_length : forall s d r,
  span_digits s = (d, r) -> length s = (length d + length r)%nat.
Proof.
induction s as [|c s IH]; intros d r H; simpl in H.
- now injection H as <- <-.
- destruct (is_digit c).
  + destruct (span_digits s) as [d' r'] eqn:Hs.
    injection H as <- <-. simpl. now rewrite (IH _ _ eq_refl).
  + now injection H as <- <-.
Qed.

Lemma span_digits_app : forall s w d r,
  blank w -> span_digits s = (d, r) -> span_digits (s ++ w) = (d, r ++ w).
Proof.
induction s as [|c s IH]; intros w d r Hw H; simpl in *.
- injection H as <- <-. destruct w as [|c w]; [reflexivity|].
  simpl. now rewrite (blank_head_not_digit _ _ Hw).
- destruct (is_digit c).
  + destruct (span_digits s) as [d' r'] eqn:Hs.
    injection H as <- <-. now rewrite (IH w d' r' Hw eq_refl).
  + now injection H as <- <-.
Qed.

Lemma match_integer_length : forall s i r,
  match_integer s = Some (i, r) -> (length r < length s)%nat.
Proof.
intros s i r H. unfold match_integer in H.
destruct s as [|c s]; [discriminate|].
destruct (c =? 45).
- destruct s as [|d s]; [discriminate|].
  destruct (d =? 48); [injection H as _ <-; simpl; lia|].
  destruct (is_digit d); [|discriminate].
  destruct (span_digits s) as [ds rs] eqn:Hs.
  injection H as _ <-. apply span_digits_length in Hs. simpl. lia.
- destruct (c =? 48); [injection H as _ <-; simpl; lia|].
  destruct (is_digit c); [|discriminate].
  destruct (span_digits s) as [ds rs] eqn:Hs.
  injection H as _ <-. apply span_digits_length in Hs. simpl. lia.
Qed.

Lemma match_integer_app : forall s w i r,
  blank w -> match_integer s = Some (i, r) ->
  match_integer (s ++ w) = Some (i, r ++ w).
Proof.
intros s w i r Hw H. unfold match_integer in *.
destruct s as [|c s]; [discriminate|]. simpl.
destruct (c =? 45).
- destruct s as [|d s]; [discriminate|]. simpl.
  destruct (d =? 48); [now injection H as <- <-|].
  destruct (is_digit d); [|discriminate].
  destruct (span_digits s) as [ds rs] eqn:Hs.
  rewrite (span_digits_app _ _ _ _ Hw Hs). now injection H as <- <-.
- destruct (c =? 48); [now injection H as <- <-|].
  destruct (is_digit c); [|discriminate].
  destruct (span_digits s) as [ds rs] eqn:Hs.
  rewrite (span_digits_app _ _ _ _ Hw Hs). now injection H as <- <-.
Qed.

Lemma match_integer_blank : forall w, blank w -> match_integer w = None.
Proof.
intros w Hw. destruct w as [|c w]; [reflexivity|].
pose proof (blank_head _ _ Hw) as Hc. unfold is_ws in Hc.
unfold match_integer.
repeat (apply orb_true_iff in Hc as [Hc|Hc]); apply N.eqb_eq in Hc; subst c;
  reflexivity.
Qed.

Lemma match_integer_app_none : forall s w,
  blank w -> match_integer s = None -> match_integer (s ++ w) = None.
Proof.
intros s w Hw H.
destruct s as [|c s]; [now apply match_integer_blank|].
unfold match_integer in *. simpl.
destruct (c =? 45) eqn:Hc.
- destruct s as [|d s].
  + pose proof (match_integer_blank _ Hw) as Hb. unfold match_integer in Hb.
    simpl. destruct w as [|e w]; [reflexivity|].
    pose proof (blank_head _ _ Hw) as He. unfold is_ws in He.
    repeat (apply orb_true_iff in He as [He|He]); apply N.eqb_eq in He;
      subst e; reflexivity.
  + simpl. destruct (d =? 48); [discriminate|].
    destruct (is_digit d); [|reflexivity].
    destruct (span_digits s); discriminate.
- destruct (c =? 48); [discriminate|].
  destruct (is_digit c); [|reflexivity].
  destruct (span_digits s); discriminate.
Qed.

Lemma match_frac_length : forall s f r,
  match_frac s = (f, r) -> (length r <= length s)%nat.
Proof.
intros s f r H. unfold match_frac in H.
destruct s as [|c s]; [injection H as _ <-; simpl; lia|].
destruct (c =? 46); [|injection H as _ <-; lia].
destruct (span_digits s) as [ds rs] eqn:Hs.
apply span_digits_length in Hs.
destruct ds; injection H as _ <-; simpl in *; lia.
Qed.

Lemma blank_head_eqb : forall c w k,
  blank (c :: w) -> is_ws k = false -> (c =? k) = false.
Proof.
intros c w k Hw Hk. destruct (c =? k) eqn:H; [|reflexivity].
apply N.eqb_eq in H. subst k. rewrite (blank_head _ _ Hw) in Hk. discriminate.
Qed.

Lemma match_frac_app : forall s w f r,
  blank w -> match_frac s = (f, r) -> match_frac (s ++ w) = (f, r ++ w).
Proof.
intros s w f r Hw H. unfold match_frac in *.
destruct s as [|c s].
- injection H as <- <-. simpl. destruct w as [|e w]; [reflexivity|].
  now rewrite (blank_head_eqb _ _ 46 Hw eq_refl).
- simpl. destruct (c =? 46); [|now injection H as <- <-].
  destruct (span_digits s) as [ds rs] eqn:Hs.
  rewrite (span_digits_app _ _ _ _ Hw Hs).
  destruct ds; now injection H as <- <-.
Qed.

Lemma match_exp_length : forall s x r,
  match_exp s = (x, r) -> (length r <= length s)%nat.
Proof.
intros s x r H. unfold match_exp in H.
destruct s as [|c s]; [injection H as _ <-; simpl; lia|].
destruct ((c =? 101) || (c =? 69)); [|injection H as _ <-; lia].
destruct s as [|g s].
- simpl in H. injection H as _ <-. simpl. lia.
- destruct ((g =? 45) || (g =? 43)).
  + destruct (span_digits s) as [ds rs] eqn:Hs.
    apply span_digits_length in Hs.
    destruct ds; injection H as _ <-; simpl in *; lia.
  + destruct (span_digits (g :: s)) as [ds rs] eqn:Hs.
    apply span_digits_length in Hs.
    destruct ds; injection H as _ <-; simpl in *; lia.
Qed.

Lemma match_exp_app : forall s w x r,
  blank w -> match_exp s = (x, r) -> match_exp (s ++ w) = (x, r ++ w).
Proof.
intros s w x r Hw H. unfold match_exp in *.
destruct s as [|c s].
- injection H as <- <-. simpl. destruct w as [|e w]; [reflexivity|].
  rewrite (blank_head_eqb _ _ 101 Hw eq_refl).
  now rewrite (blank_head_eqb _ _ 69 Hw eq_refl).
- simpl. destruct ((c =? 101) || (c =? 69)); [|now injection H as <- <-].
  destruct s as [|g s].
  + simpl in H. injection H as <- <-. simpl.
    destruct w as [|e w]; [reflexivity|].
    rewrite (blank_head_eqb _ _ 45 Hw eq_refl).
    rewrite (blank_head_eqb _ _ 43 Hw eq_refl). simpl.
    now rewrite (blank_head_not_digit _ _ Hw).
  + cbn [app]. destruct ((g =? 45) || (g =? 43)).
    * destruct (span_digits s) as [ds rs] eqn:Hs.
      rewrite (span_digits_app _ _ _ _ Hw Hs).
      destruct ds; now injection H as <- <-.
    * destruct (span_digits (g :: s)) as [ds rs] eqn:Hs.
      change (g :: s ++ w) with ((g :: s) ++ w).
      rewrite (span_digits_app _ _ _ _ Hw Hs).
      destruct ds; now injection H as <- <-.
Qed.

Lemma scan_number_length : forall L s v r,
  scan_number L s = Some (Ok v r) -> (length r < length s)%nat.
Proof.
intros L s v r H. unfold scan_number in H.
destruct (match_integer s) as [[i s1]|] eqn:Hi; [|discriminate].
destruct (match_frac s1) as [f s2] eqn:Hf.
destruct (match_exp s2) as [x s3] eqn:Hx.
apply match_integer_length in Hi. apply match_frac_length in Hf.
apply match_exp_length in Hx.
destruct f, x; try destruct (too_many_digits L i); try discriminate;
  injection H as _ <-; lia.
Qed.

(** A number is a value, or an integer of too many digits. *)
Lemma scan_number_cases : forall L s R,
  scan_number L s = Some R -> (exists v r, R = Ok v r) \/ R = Err TooLong.
Proof.
intros L s R H. unfold scan_number in H.
destruct (match_integer s) as [[i s1]|]; [|discriminate].
destruct (match_frac s1) as [f s2]. destruct (match_exp s2) as [x s3].
destruct f, x; try destruct (too_many_digits L i);
  injection H as <-; eauto.
Qed.

Lemma scan_number_app : forall L s w R,
  blank w -> scan_number L s = Some R ->
  scan_number L (s ++ w) = Some (shift w R).
Proof.
intros L s w R Hw H. unfold scan_number in *.
destruct (match_integer s) as [[i s1]|] eqn:Hi; [|discriminate].
rewrite (match_integer_app _ _ _ _ Hw Hi).
destruct (match_frac s1) as [f s2] eqn:Hf.
rewrite (match_frac_app _ _ _ _ Hw Hf).
destruct (match_exp s2) as [x s3] eqn:Hx.
rewrite (match_exp_app _ _ _ _ Hw Hx).
destruct f, x; try destruct (too_many_digits L i);
  now injection H as <-.
Qed.

Lemma scan_number_app_none : forall L s w,
  blank w -> scan_number L s = None -> scan_number L (s ++ w) = None.
Proof.
intros L s w Hw H. unfold scan_number in *.
destruct (match_integer s) as [[i s1]|] eqn:Hi.
- destruct (match_frac s1) as [f s2]. destruct (match_exp s2) as [x s3].
  destruct f, x; try destruct (too_many_digits L i); discriminate.
- now rewrite (match_integer_app_none _ _ Hw Hi).
Qed.

(** ** Strings *)

Lemma decode_uXXXX_length : forall s u r,
  decode_uXXXX s = Some (u, r) -> length s = (4 + length r)%nat.
Proof.
intros s u r H. unfold decode_uXXXX in H.
destruct s as [|a [|b [|c [|d s]]]]; try discriminate.
destruct (hexval a), (hexval b), (hexval c), (hexval d); try discriminate.
now injection H as _ <-.
Qed.

Lemma decode_uXXXX_app : forall s w u r,
  decode_uXXXX s = Some (u, r) -> decode_uXXXX (s ++ w) = Some (u, r ++ w).
Proof.
intros s w u r H. unfold decode_uXXXX in *.
destruct s as [|a [|b [|c [|d s]]]]; try discriminate. simpl.
destruct (hexval a), (hexval b), (hexval c), (hexval d); try discriminate.
now injection H as <- <-.
Qed.

End ScannerFacts.

(* ================================================================== *)
(** * The JSON decoder: strings *)
(* ================================================================== *)

Section StringScannerFacts.

Local Open Scope N_scope.

(** Case analysis on the scrutinee of a [match] in a hypothesis. *)
Ltac split_match H :=
  match type of H with
  | context [match ?x with _ => _ end] =>
      first [is_var x; destruct x | destruct x eqn:?]
  end.

Ltac split_all H := repeat (split_match H; try discriminate H).

Lemma scanstring_length : forall f s t r,
  scanstring f s = Ok t r -> (length r < length s)%nat.
Proof.
induction f as [|f IH]; intros s t r H; [discriminate|].
cbn [scanstring] in H. split_all H; injection H as _ <-;
  repeat match goal with
         | Hq : scanstring f _ = Ok _ _ |- _ => apply IH in Hq
         | Hq : decode_uXXXX _ = Some _ |- _ => apply decode_uXXXX_length in Hq
         end;
  try rewrite length_skipn in *; cbn [length] in *; lia.
Qed.

Lemma scanstring_fuel : forall f s,
  (length s < f)%nat -> scanstring f s <> OutOfFuel.
Proof.
induction f as [|f IH]; intros s Hf; [lia|].
intros H. cbn [scanstring] in H. split_all H;
  repeat match goal with
         | Hq : decode_uXXXX _ = Some _ |- _ => apply decode_uXXXX_length in Hq
         end;
  match goal with
  | Hq : scanstring f ?x = OutOfFuel |- _ =>
      apply (IH x); [|exact Hq]
  end;
  try rewrite length_skipn in *; cbn [length] in *; lia.
Qed.

(** The string scanner fails on text that is not a JSON string, and in
    no other way. *)
Lemma scanstring_malformed : forall f s e,
  scanstring f s = Err e -> e = Malformed.
Proof.
induction f as [|f IH]; intros s e H; [discriminate|].
cbn [scanstring] in H. split_all H;
  try (injection H as <-; reflexivity);
  match goal with
  | Hq : scanstring f _ = Err ?x |- _ =>
      apply IH in Hq; subst x; injection H as <-; reflexivity
  end.
Qed.

Lemma scanstring_mono : forall f s R,
  scanstring f s = R -> R <> OutOfFuel ->
  forall f', (f <= f')%nat -> scanstring f' s = R.
Proof.
induction f as [|f IH]; intros s R H HR f' Hf; [now subst R|].
destruct f' as [|f']; [lia|].
cbn [scanstring] in H |- *. repeat split_match H; subst R;
  try (now destruct HR);
  repeat match goal with
         | Hq : scanstring f _ = _ |- _ =>
             rewrite (IH _ _ Hq ltac:(discriminate) f') by lia; clear Hq
         end;
  reflexivity.
Qed.

Lemma scanstring_app : forall f s w t r,
  blank w -> scanstring f s = Ok t r ->
  scanstring f (s ++ w) = Ok t (r ++ w).
Proof.
induction f as [|f IH]; intros s w t r Hw H; [discriminate|].
destruct s as [|c s1]; [discriminate|].
cbn [scanstring] in H. cbn [app scanstring].
destruct (c =? 34); [now injection H as <- <-|].
destruct (c =? 92).
- destruct s1 as [|e s2]; [discriminate|]. cbn [app].
  destruct (e =? 117).
  + destruct (decode_uXXXX s2) as [[uni s3]|] eqn:Hu; [|discriminate].
    rewrite (decode_uXXXX_app _ w _ _ Hu).
    rewrite (startswith_app_blank [92; 117] s3 w eq_refl Hw).
    assert (Hsingle : forall t' r',
              match scanstring f s3 with
              | Ok t0 r0 => Ok (uni :: t0) r0
              | Err e => Err e
              | OutOfFuel => OutOfFuel
              end = Ok t' r' ->
              match scanstring f (s3 ++ w) with
              | Ok t0 r0 => Ok (uni :: t0) r0
              | Err e => Err e
              | OutOfFuel => OutOfFuel
              end = Ok t' (r' ++ w)).
    { intros t' r' H1.
      destruct (scanstring f s3) as [t0 r0|e0|] eqn:Hs; try discriminate.
      rewrite (IH _ _ _ _ Hw Hs). injection H1 as <- <-; reflexivity. }
    destruct (is_high_surrogate uni && startswith s3 [92; 117]) eqn:Hh;
      [|now apply Hsingle].
    apply andb_true_iff in Hh as [_ Hp]. apply startswith_length in Hp.
    rewrite (skipn_app_le 2 s3 w Hp).
    destruct (decode_uXXXX (skipn 2 s3)) as [[uni2 s4]|] eqn:Hu2;
      [|discriminate].
    rewrite (decode_uXXXX_app _ w _ _ Hu2).
    destruct (is_low_surrogate uni2); [|now apply Hsingle].
    destruct (scanstring f s4) as [t0 r0|e0|] eqn:Hs; try discriminate.
    rewrite (IH _ _ _ _ Hw Hs). injection H as <- <-; reflexivity.
  + destruct (unescape e); [|discriminate].
    destruct (scanstring f s2) as [t0 r0|e0|] eqn:Hs; try discriminate.
    rewrite (IH _ _ _ _ Hw Hs). injection H as <- <-; reflexivity.
- destruct (c <? 32); [discriminate|].
  destruct (scanstring f s1) as [t0 r0|e0|] eqn:Hs; try discriminate.
  rewrite (IH _ _ _ _ Hw Hs). injection H as <- <-; reflexivity.
Qed.

(** The string scanner, with the budget its callers give it, runs to the
    end. *)
Lemma scanstring_total : forall s, scanstring (S (length s)) s <> OutOfFuel.
Proof. intros s. apply scanstring_fuel. lia. Qed.

Lemma scanstring_app_budget : forall s w t r,
  blank w -> scanstring (S (length s)) s = Ok t r ->
  scanstring (S (length (s ++ w))) (s ++ w) = Ok t (r ++ w).
Proof.
intros s w t r Hw H. apply scanstring_app; [exact Hw|].
apply (scanstring_mono _ _ _ H); [discriminate|]. rewrite length_app. lia.
Qed.

End StringScannerFacts.

(* ================================================================== *)
(** * The JSON decoder: values *)
(* ================================================================== *)

Section ValueFacts.

Local Open Scope N_scope.

Variable L : limits.

Ltac split_match H :=
  match type of H with
  | context [match ?x with _ => _ end] =>
      first [is_var x; destruct x | destruct x eqn:?]
  end.

Ltac split_all H := repeat (split_match H; try discriminate H).

Ltac ws_len :=
  repeat match goal with
         | H : context [length (skip_ws ?x)] |- _ =>
             let L := fresh "L" in
             let y := fresh "y" in
             pose proof (skip_ws_length x) as L;
             set (y := skip_ws x) in *; clearbody y
         | |- context [length (skip_ws ?x)] =>
             let L := fresh "L" in
             let y := fresh "y" in
             pose proof (skip_ws_length x) as L;
             set (y := skip_ws x) in *; clearbody y
         end.

Ltac unfold_scanners H := cbn [scan_once array_items object_items] in H.

(** ** Every scanner consumes something *)

Lemma value_length : forall f,
  (forall d s v r, scan_once L d f s = Ok v r -> (length r < length s)%nat)
  /\ (forall d s vs r,
        array_items L d f s = Ok vs r -> (length r < length s)%nat)
  /\ (forall d s ps r,
        object_items L d f s = Ok ps r -> (length r < length s)%nat).
Proof.
induction f as [|f [IHv [IHa IHo]]];
  [repeat split; intros; discriminate|].
repeat split; intros d s v r H; unfold_scanners H; split_all H;
  first [injection H as _ <- | subst];
  repeat match goal with
         | Hq : scanstring _ _ = Ok _ _ |- _ => apply scanstring_length in Hq
         | Hq : scan_once L _ f _ = Ok _ _ |- _ => apply IHv in Hq
         | Hq : array_items L _ f _ = Ok _ _ |- _ => apply IHa in Hq
         | Hq : object_items L _ f _ = Ok _ _ |- _ => apply IHo in Hq
         | Hq : scan_number L _ = Some _ |- _ => apply scan_number_length in Hq
         | Hq : skip_ws ?x = _ |- _ =>
             let L := fresh "L" in
             pose proof (skip_ws_length x) as L; rewrite Hq in L; clear Hq
         end;
  rewrite ?length_skipn in *; cbn [length] in *; ws_len; try lia;
  repeat (match goal with
          | |- context [match ?l with _ => _ end] => destruct l
          end; cbn [length]; try lia).
Qed.

(** ** The budget suffices *)

Lemma value_fuel : forall f,
  (forall d s, (2 * length s + 1 <= f)%nat -> scan_once L d f s <> OutOfFuel)
  /\ (forall d s,
        (2 * length s + 2 <= f)%nat -> array_items L d f s <> OutOfFuel)
  /\ (forall d s,
        (2 * length s + 2 <= f)%nat -> object_items L d f s <> OutOfFuel).
Proof.
induction f as [|f [IHv [IHa IHo]]];
  [repeat split; intros; lia|].
destruct (value_length f) as [Lv [La Lo]].
repeat split; intros d s Hf H; unfold_scanners H; split_all H;
  try (match goal with
       | Hq : scanstring (S (length ?x)) ?x = OutOfFuel |- _ =>
           exact (scanstring_total x Hq)
       | Hq : scan_number L _ = Some ?n |- _ =>
           subst n; apply scan_number_cases in Hq as [[? [? Hq]]|Hq];
           discriminate Hq
       end);
  repeat match goal with
         | Hq : scanstring _ _ = Ok _ _ |- _ => apply scanstring_length in Hq
         | Hq : scan_once L _ f _ = Ok _ _ |- _ => apply Lv in Hq
         | Hq : array_items L _ f _ = Ok _ _ |- _ => apply La in Hq
         | Hq : object_items L _ f _ = Ok _ _ |- _ => apply Lo in Hq
         | Hq : skip_ws ?x = _ |- _ =>
             let L := fresh "L" in
             pose proof (skip_ws_length x) as L; rewrite Hq in L; clear Hq
         end;
  match goal with
  | Hq : scan_once L ?d ?f ?x = OutOfFuel |- _ => apply (IHv d x); [|exact Hq]
  | Hq : array_items L ?d ?f ?x = OutOfFuel |- _ => apply (IHa d x); [|exact Hq]
  | Hq : object_items L ?d ?f ?x = OutOfFuel |- _ =>
      apply (IHo d x); [|exact Hq]
  end;
  cbn [length] in *; ws_len; lia.
Qed.

(** ** More budget changes nothing *)

Lemma value_mono : forall f,
  (forall d s R, scan_once L d f s = R -> R <> OutOfFuel ->
     forall f', (f <= f')%nat -> scan_once L d f' s = R)
  /\ (forall d s R, array_items L d f s = R -> R <> OutOfFuel ->
        forall f', (f <= f')%nat -> array_items L d f' s = R)
  /\ (forall d s R, object_items L d f s = R -> R <> OutOfFuel ->
        forall f', (f <= f')%nat -> object_items L d f' s = R).
Proof.
induction f as [|f [IHv [IHa IHo]]];
  [repeat split; intros d s R H HR; now subst R|].
repeat split; intros d s R H HR f' Hf;
  (destruct f' as [|f']; [lia|]);
  unfold_scanners H; cbn [scan_once array_items object_items];
  repeat split_match H; subst R;
  try (now destruct HR);
  repeat match goal with
         | Hq : scan_once L _ f _ = _ |- _ =>
             rewrite (IHv _ _ _ Hq ltac:(discriminate) f') by lia; clear Hq
         | Hq : array_items L _ f _ = _ |- _ =>
             rewrite (IHa _ _ _ Hq ltac:(discriminate) f') by lia; clear Hq
         | Hq : object_items L _ f _ = _ |- _ =>
             rewrite (IHo _ _ _ Hq ltac:(discriminate) f') by lia; clear Hq
         | Hq : ?x = _ |- context [?x] => rewrite Hq
         end;
  reflexivity.
Qed.

End ValueFacts.

(* ================================================================== *)
(** * The JSON decoder: whitespace after a text, and [loads] *)
(* ================================================================== *)

Section DecoderFacts.

Local Open Scope N_scope.

Variable L : limits.
Variable w : str.
Hypothesis Hw : blank w.

(** A literal of the scanner, found in [s], is found in [s ++ w] and
    leaves [w] more behind. *)
Lemma literal_app : forall (s lit : str) (c k : N),
  forallb (fun c => negb (is_ws c)) lit = true ->
  (c =? k) && startswith (s ++ w) lit = (c =? k) && startswith s lit.
Proof.
intros s lit c k Hl. now rewrite (startswith_app_blank lit s w Hl Hw).
Qed.

Lemma literal_rest : forall (s lit : str) (b : bool) (n : nat),
  n = length lit ->
  b && startswith s lit = true ->
  skipn n (s ++ w) = skipn n s ++ w.
Proof.
intros s lit b n -> H. apply andb_true_iff in H as [_ H].
apply skipn_app_le. now apply startswith_length.
Qed.

(** Nothing settles on the empty text. *)
Lemma nothing_settled : forall d f,
  ~ settled (scan_once L d f []) /\ ~ settled (array_items L d f []).
Proof.
intros d f. split.
- destruct f as [|f]; exact (fun H => H).
- destruct f as [|[|f]]; exact (fun H => H).
Qed.

(** What a scanner decodes from [s] it decodes from [s ++ w], leaving
    [w] more behind; where it reaches a limit in [s] it reaches it in
    [s ++ w]. *)
Lemma value_app : forall f,
  (forall d s, settled (scan_once L d f s) ->
     scan_once L d f (s ++ w) = shift w (scan_once L d f s))
  /\ (forall d s, settled (array_items L d f s) ->
        array_items L d f (s ++ w) = shift w (array_items L d f s))
  /\ (forall d s, settled (object_items L d f s) ->
        object_items L d f (s ++ w) = shift w (object_items L d f s)).
Proof.
induction f as [|f [IHv [IHa IHo]]];
  [repeat split; intros d s HR; destruct HR|].
repeat split.
- (* scan_once *)
  intros d s HR. destruct s as [|c s']; [destruct HR|].
  change (scan_once L d (S f) ((c :: s') ++ w))
    with (scan_once L d (S f) (c :: (s' ++ w))).
  cbn [scan_once] in HR |- *.
  change (c :: s' ++ w) with ((c :: s') ++ w).
  destruct (c =? 34).
  { destruct (scanstring (S (length s')) s') as [t0 r0|e0|] eqn:Hs.
    - now rewrite (scanstring_app_budget _ _ _ _ Hw Hs).
    - apply scanstring_malformed in Hs. subst e0. destruct HR.
    - destruct HR. }
  destruct (c =? 123).
  { destruct d as [|d']; [reflexivity|].
    destruct (skip_ws s') as [|k r0] eqn:Hk; [destruct HR|].
    rewrite (skip_ws_app _ w _ _ Hk).
    destruct (k =? 125); [reflexivity|].
    destruct (k =? 34); [|destruct HR].
    specialize (IHo d' r0).
    destruct (object_items L d' f r0) as [ps r1|e|];
      [rewrite (IHo I)|rewrite (IHo HR)|destruct HR]; reflexivity. }
  destruct (c =? 91).
  { destruct d as [|d']; [reflexivity|].
    destruct (skip_ws s') as [|k r0] eqn:Hk; [destruct HR|].
    rewrite (skip_ws_app _ w _ _ Hk).
    destruct (k =? 93); [reflexivity|].
    change (k :: r0 ++ w) with ((k :: r0) ++ w).
    specialize (IHa d' (k :: r0)).
    destruct (array_items L d' f (k :: r0)) as [vs r1|e|];
      [rewrite (IHa I)|rewrite (IHa HR)|destruct HR]; reflexivity. }
  rewrite !literal_app by reflexivity.
  destruct ((c =? 110) && startswith (c :: s') (py "null")) eqn:H1.
  { now rewrite (literal_rest _ (py "null") _ 4 eq_refl H1). }
  destruct ((c =? 116) && startswith (c :: s') (py "true")) eqn:H2.
  { now rewrite (literal_rest _ (py "true") _ 4 eq_refl H2). }
  destruct ((c =? 102) && startswith (c :: s') (py "false")) eqn:H3.
  { now rewrite (literal_rest _ (py "false") _ 5 eq_refl H3). }
  destruct (scan_number L (c :: s')) as [number|] eqn:Hn.
  { now rewrite (scan_number_app _ _ _ _ Hw Hn). }
  rewrite (scan_number_app_none _ _ _ Hw Hn).
  destruct ((c =? 78) && startswith (c :: s') (py "NaN")) eqn:H4.
  { now rewrite (literal_rest _ (py "NaN") _ 3 eq_refl H4). }
  destruct ((c =? 73) && startswith (c :: s') (py "Infinity")) eqn:H5.
  { now rewrite (literal_rest _ (py "Infinity") _ 8 eq_refl H5). }
  destruct ((c =? 45) && startswith (c :: s') (py "-Infinity")) eqn:H6;
    [|destruct HR].
  now rewrite (literal_rest _ (py "-Infinity") _ 9 eq_refl H6).
- (* array_items *)
  intros d s HR. cbn [array_items] in HR |- *.
  specialize (IHv d s).
  destruct (scan_once L d f s) as [v r0|e|];
    [rewrite (IHv I)|now rewrite (IHv HR)|destruct HR].
  cbn [shift].
  destruct (skip_ws r0) as [|c r1] eqn:Hk; [destruct HR|].
  rewrite (skip_ws_app _ w _ _ Hk).
  destruct (c =? 93); [reflexivity|].
  destruct (c =? 44); [|destruct HR].
  destruct (skip_ws r1) as [|k r3] eqn:Hk1.
  { exfalso. destruct (nothing_settled d f) as [_ Hno]. apply Hno.
    destruct (array_items L d f []) as [? ?|e|]; [exact I|exact HR|exact HR]. }
  rewrite (skip_ws_app _ w _ _ Hk1).
  change (k :: r3 ++ w) with ((k :: r3) ++ w).
  specialize (IHa d (k :: r3)).
  destruct (array_items L d f (k :: r3)) as [vs r2|e|];
    [rewrite (IHa I)|rewrite (IHa HR)|destruct HR]; reflexivity.
- (* object_items *)
  intros d s HR. cbn [object_items] in HR |- *.
  destruct (scanstring (S (length s)) s) as [key r0|e0|] eqn:Hs;
    [|apply scanstring_malformed in Hs; subst e0; destruct HR|destruct HR].
  rewrite (scanstring_app_budget _ _ _ _ Hw Hs).
  destruct (skip_ws r0) as [|c r1] eqn:Hk; [destruct HR|].
  rewrite (skip_ws_app _ w _ _ Hk).
  destruct (c =? 58); [|destruct HR].
  destruct (skip_ws r1) as [|k r3] eqn:Hk1.
  { exfalso. destruct (nothing_settled d f) as [Hno _]. apply Hno.
    destruct (scan_once L d f []) as [? ?|e|]; [exact I|exact HR|exact HR]. }
  rewrite (skip_ws_app _ w _ _ Hk1).
  change (k :: r3 ++ w) with ((k :: r3) ++ w).
  specialize (IHv d (k :: r3)).
  destruct (scan_once L d f (k :: r3)) as [v r2|e|];
    [rewrite (IHv I)|now rewrite (IHv HR)|destruct HR].
  cbn [shift].
  destruct (skip_ws r2) as [|e r4] eqn:Hk2; [destruct HR|].
  rewrite (skip_ws_app _ w _ _ Hk2).
  destruct (e =? 125); [reflexivity|].
  destruct (e =? 44); [|destruct HR].
  destruct (skip_ws r4) as [|q r5] eqn:Hk3; [destruct HR|].
  rewrite (skip_ws_app _ w _ _ Hk3).
  destruct (q =? 34); [|destruct HR].
  specialize (IHo d r5).
  destruct (object_items L d f r5) as [ps' r6|e1|];
    [rewrite (IHo I)|rewrite (IHo HR)|destruct HR]; reflexivity.
Qed.

End DecoderFacts.

Section LoadsFacts.

Local Open Scope N_scope.

Variable L : limits.

(** [loads] is total: its scanner never runs out of budget, so a
    failure is an exception of [json.loads] and nothing else. *)
Lemma decode_total : forall s, decode L s <> OutOfFuel.
Proof.
intros s H. unfold decode in H.
destruct (scan_once L (max_depth L) (budget s) (skip_ws s))
  as [v r|e|] eqn:Hs.
- destruct (skip_ws r); discriminate.
- discriminate.
- destruct (value_fuel L (budget s)) as [Hv _].
  apply (Hv (max_depth L) (skip_ws s)); [|exact Hs].
  pose proof (skip_ws_length s). unfold budget. lia.
Qed.

Lemma loads_failed : forall s e, loads L s = Failed e <-> decode L s = Err e.
Proof.
intros s e. unfold loads. pose proof (decode_total s) as Ht.
destruct (decode L s); split; congruence.
Qed.


(** A text that [loads] does not reject as malformed begins a value or
    reaches a limit: either way the scanner settles on it. *)
Lemma loads_settled : forall s,
  loads L s <> Failed Malformed ->
  settled (scan_once L (max_depth L) (budget s) (skip_ws s)).
Proof.
intros s H. unfold loads, decode in H.
destruct (scan_once L (max_depth L) (budget s) (skip_ws s)) as [v r|[| |]|];
  try exact I; now destruct H.
Qed.

(** Whitespace around a JSON text changes nothing to what [loads] does
    with it: the value is the same, and so is the limit reached. *)
Lemma loads_padded : forall s pad1 pad2,
  blank pad1 -> blank pad2 ->
  loads L s <> Failed Malformed ->
  loads L (pad1 ++ s ++ pad2) = loads L s.
Proof.
intros s pad1 pad2 H1 H2 H. pose proof (loads_settled s H) as Hset.
unfold loads, decode in H |- *.
rewrite (skip_ws_blank pad1 _ H1).
destruct (skip_ws s) as [|c s'] eqn:Hk.
{ destruct (nothing_settled L (max_depth L) (budget s)) as [Hno _].
  now destruct (Hno Hset). }
rewrite (skip_ws_app _ pad2 _ _ Hk).
change (c :: s' ++ pad2) with ((c :: s') ++ pad2).
destruct (value_mono L (budget s)) as [Hm _].
assert (Hbig : scan_once L (max_depth L) (budget (pad1 ++ s ++ pad2)) (c :: s')
               = scan_once L (max_depth L) (budget s) (c :: s')).
{ apply (Hm _ _ _ eq_refl).
  - intros Hf. rewrite Hf in Hset. exact Hset.
  - unfold budget. rewrite !length_app. lia. }
destruct (value_app L pad2 H2 (budget (pad1 ++ s ++ pad2))) as [Hv _].
rewrite Hv by (rewrite Hbig; exact Hset).
rewrite Hbig.
destruct (scan_once L (max_depth L) (budget s) (c :: s')) as [v r|e|];
  cbn [shift]; try reflexivity.
destruct (skip_ws r) as [|k r'] eqn:Hr; [|now destruct H].
now rewrite (skip_ws_app_blank _ _ Hr H2).
Qed.

(** A JSON text does not begin with the letter [j] (nor with a
    backquote): neither does whitespace. *)
Lemma scan_once_first_char : forall d f c s,
  settled (scan_once L d f (c :: s)) ->
  (c =? 106) = false /\ (c =? 96) = false.
Proof.
intros d f c s H. destruct f as [|f]; [destruct H|].
split.
- destruct (c =? 106) eqn:Hj; [|reflexivity].
  apply N.eqb_eq in Hj. subst c. vm_compute in H. destruct H.
- destruct (c =? 96) eqn:Hj; [|reflexivity].
  apply N.eqb_eq in Hj. subst c. vm_compute in H. destruct H.
Qed.

Lemma loads_first_char : forall s,
  loads L s <> Failed Malformed ->
  exists c s', s = c :: s' /\ (c =? 106) = false /\ (c =? 96) = false.
Proof.
intros s H. apply loads_settled in H.
destruct s as [|c s'].
{ destruct (nothing_settled L (max_depth L) (budget [])) as [Hno _].
  now destruct (Hno H). }
exists c, s'. split; [reflexivity|].
destruct (is_ws c) eqn:Hc.
- unfold is_ws in Hc.
  repeat (apply orb_true_iff in Hc as [Hc|Hc]); apply N.eqb_eq in Hc;
    subst c; split; reflexivity.
- simpl skip_ws in H. rewrite Hc in H.
  now apply scan_once_first_char in H.
Qed.

(** The empty text is not JSON, on any interpreter. *)
Lemma loads_empty : loads L [] = Failed Malformed.
Proof. reflexivity. Qed.

End LoadsFacts.

(* ================================================================== *)
(** * The engine *)
(* ================================================================== *)

Section EngineFacts.

Variable E : environment.

(** An event that is a dict is processed; any other object makes the first
  [data.get] raise, and the handler logs it. Either way the coroutine
  returns, and the graph store and the backend are left alone. *)
Lemma process_sensor_data_run : forall data w,
exists entries,
  process_sensor_data E data w =
  (Returned tt,
   {| sent := sent w; log := log w ++ entries;
      readings := (if is_dict data then S (readings w) else readings w);
      sleeps := sleeps w; graph := graph w |})
  /\ (is_dict data = false ->
      entries = [(DEBUG, ProcessingSensorData data);
                 (ERROR, ErrorProcessingSensorData AttributeError)]).
Proof.
intros data w.
assert (Hfail : is_dict data = false ->
          process_sensor_data E data w =
          (Returned tt,
           {| sent := sent w;
              log := log w ++ [(DEBUG, ProcessingSensorData data);
                               (ERROR, ErrorProcessingSensorData AttributeError)];
              readings := readings w; sleeps := sleeps w;
              graph := graph w |})).
{ intros Hd.
  unfold process_sensor_data, try_except, bind, logging.
  destruct data as [j|tag]; [destruct j; try discriminate Hd|];
    simpl; rewrite <- app_assoc; reflexivity. }
destruct (is_dict data) eqn:Hd.
- destruct data as [j|tag]; [destruct j; try discriminate Hd|discriminate Hd].
  eexists. split; [|discriminate].
  unfold process_sensor_data, try_except, bind, py_get, ret, logging,
    datetime_now. simpl. rewrite <- app_assoc. reflexivity.
- eexists. split; [now apply Hfail|reflexivity].
Qed.

Lemma generate_insights_run : forall context w,
exists v w',
  generate_insights E context w = (Returned v, w')
  /\ sleeps w' = sleeps w /\ graph w' = graph w /\ sent w' = sent w
  /\ (forall tag, context = Opaque tag ->
      v = JDict []
      /\ log w' = log w ++ [(ERROR, ErrorGeneratingInsights TypeError)]).
Proof.
intros context w. destruct context as [j|tag].
- do 2 eexists. split; [reflexivity|]. simpl.
  repeat split; discriminate.
- do 2 eexists. split; [reflexivity|]. simpl.
  repeat split; reflexivity.
Qed.

Lemma run_processing_cycle_run : forall w,
exists w',
  run_processing_cycle E w = (Returned tt, w')
  /\ sleeps w' = sleeps w /\ graph w' = graph w /\ sent w' = sent w.
Proof.
intros w. eexists. split; [vm_compute; reflexivity|]. repeat split.
Qed.

Lemma initialize_services_run : forall w,
exists w',
  initialize_services w = (Returned true, w')
  /\ sleeps w' = sleeps w /\ graph w' = graph w /\ sent w' = sent w.
Proof.
intros w. eexists. split; [vm_compute; reflexivity|]. repeat split.
Qed.

(** One round of the loop. *)
Lemma main_loop_round : forall iterations cycle_count w,
  exists w1,
    sleeps w1 = sleeps w
    /\ main_loop E (S iterations) cycle_count w =
       if sigint E (sleeps w1) then (Signalled KeyboardInterrupt, with_sleep w1)
       else main_loop E iterations (S cycle_count) (with_sleep w1).
Proof.
intros iterations cycle_count w.
destruct (run_processing_cycle_run
            (with_log INFO (CycleNumber (S cycle_count)) w))
  as [w1 [Hc [Hs _]]].
exists w1. split; [exact Hs|].
simpl main_loop. unfold bind, logging. unfold with_log in Hc. rewrite Hc.
unfold asyncio_sleep, with_sleep.
destruct (sigint E (sleeps w1)); reflexivity.
Qed.

(** The loop leaves only by Ctrl-C. *)
Lemma main_loop_outcome : forall iterations cycle_count w,
  fst (main_loop E iterations cycle_count w) = StillRunning
  \/ fst (main_loop E iterations cycle_count w) = Signalled KeyboardInterrupt.
Proof.
induction iterations as [|n IH]; intros cycle_count w; [now left|].
destruct (main_loop_round n cycle_count w) as [w1 [_ Hr]]. rewrite Hr.
destruct (sigint E (sleeps w1)); [now right|]. apply IH.
Qed.

(** Without Ctrl-C it goes on, one sleep for each round. *)
Lemma main_loop_goes_on : forall iterations cycle_count w,
  (forall k, k < iterations -> sigint E (sleeps w + k) = false) ->
  exists w',
    main_loop E iterations cycle_count w = (StillRunning, w')
    /\ sleeps w' = sleeps w + iterations.
Proof.
induction iterations as [|n IH]; intros cycle_count w Hq.
- exists w. split; [reflexivity|]. lia.
- destruct (main_loop_round n cycle_count w) as [w1 [Hs Hr]]. rewrite Hr.
  assert (Hq0 : sigint E (sleeps w1) = false)
    by (rewrite Hs, <- (Nat.add_0_r (sleeps w)); apply Hq; lia).
  rewrite Hq0.
  destruct (IH (S cycle_count) (with_sleep w1)) as [w' [Hl Hs']].
  + intros k Hk. simpl. rewrite Hs.
    replace (S (sleeps w + k)) with (sleeps w + S k) by lia.
    apply Hq. lia.
  + exists w'. split; [exact Hl|].
    rewrite Hs'. simpl. rewrite Hs. lia.
Qed.

(** With every required variable set, [run] comes to its loop. *)
Lemma run_configured : forall iterations w,
  filter (unset E) required_vars = [] ->
  exists w1,
    sleeps w1 = sleeps w /\ graph w1 = graph w /\ sent w1 = sent w
    /\ run E iterations w =
       try_finally
         (try_except_interrupt
            (main_loop E iterations 0)
            (logging INFO ShutdownSignalReceived)
            (fun e => logging ERROR (FatalError e) ;; sys_exit 1))
         (logging INFO EngineStopped) w1.
Proof.
intros iterations w Hf.
destruct (initialize_services_run
            (with_log INFO AllEnvironmentVariablesSet
               (with_log INFO StartingEngine w)))
  as [w1 [Hi [Hs [Hg Hn]]]].
exists w1. repeat split; try assumption.
unfold run, check_environment. rewrite Hf.
unfold with_log in Hi. cbn [sent log readings sleeps graph] in Hi.
cbv [bind logging ret negb]. cbn [sent log readings sleeps graph].
rewrite Hi. reflexivity.
Qed.

(** With one missing, it exits at once, before any cycle. *)
Lemma run_unconfigured : forall iterations w,
  filter (unset E) required_vars <> [] ->
  run E iterations w =
  (Signalled (SystemExit 1),
   with_log ERROR EnvironmentCheckFailed
     (with_log ERROR
        (MissingEnvironmentVariables (filter (unset E) required_vars))
        (with_log INFO StartingEngine w))).
Proof.
intros iterations w Hf. unfold run, check_environment.
destruct (filter (unset E) required_vars) as [|v vs]; [congruence|].
reflexivity.
Qed.

(** How [run] ends: with [sys.exit(1)] when a required variable is
    missing, and otherwise still running or, after Ctrl-C, returned. *)
Lemma run_outcome : forall iterations w,
  match filter (unset E) required_vars with
  | _ :: _ => fst (run E iterations w) = Signalled (SystemExit 1)
  | [] => fst (run E iterations w) = StillRunning
          \/ fst (run E iterations w) = Returned tt
  end.
Proof.
intros iterations w.
destruct (filter (unset E) required_vars) as [|v vs] eqn:Hf.
- destruct (run_configured iterations w Hf) as [w1 [_ [_ [_ Hr]]]].
  rewrite Hr. unfold try_finally, try_except_interrupt.
  destruct (main_loop_outcome iterations 0 w1) as [H|H];
    destruct (main_loop E iterations 0 w1) as [o w2];
    simpl in H; subst o; simpl; auto.
- rewrite run_unconfigured by (rewrite Hf; discriminate). reflexivity.
Qed.

(** As long as Ctrl-C does not arrive, it is still running. *)
Lemma run_goes_on : forall iterations w,
  filter (unset E) required_vars = [] ->
  (forall k, k < iterations -> sigint E (sleeps w + k) = false) ->
  exists w',
    run E iterations w = (StillRunning, w')
    /\ sleeps w' = sleeps w + iterations.
Proof.
intros iterations w Hf Hq.
destruct (run_configured iterations w Hf) as [w1 [Hs [_ [_ Hr]]]].
destruct (main_loop_goes_on iterations 0 w1) as [w' [Hl Hs']].
- intros k Hk. rewrite Hs. now apply Hq.
- exists w'. split; [|now rewrite Hs', Hs].
  rewrite Hr. unfold try_finally, try_except_interrupt. now rewrite Hl.
Qed.

End EngineFacts.

(* ================================================================== *)
(** * Concurrent extractions *)
(* ================================================================== *)

Section TaskFacts.

Import Tasks.

Lemma reachable_refl : forall p, reachable p p.
Proof. intros p. apply rt1n_refl. Qed.

Lemma reachable_step : forall p q r,
pool_step p q -> reachable q r -> reachable p r.
Proof. intros p q r H1 H2. eapply rt1n_trans; eassumption. Qed.

(** The other tasks move while one waits. *)
Lemma reachable_cons : forall t p q,
reachable p q -> reachable (t :: p) (t :: q).
Proof.
intros t p q H. induction H as [|p p' q Hs _ IH]; [apply reachable_refl|].
eapply reachable_step; [|exact IH]. now apply pool_there.
Qed.

(** Nothing holds a pending task back: all of them post. *)
Lemma all_post : forall n, reachable (pending n) (repeat InFlight n).
Proof.
induction n as [|n IH]; [apply reachable_refl|].
simpl. eapply reachable_step.
- apply pool_here. apply step_post.
- now apply reachable_cons.
Qed.

Lemma in_flight_all : forall n, in_flight (repeat InFlight n) = n.
Proof.
induction n as [|n IH]; [reflexivity|].
unfold in_flight in *. simpl. now rewrite IH.
Qed.

Lemma pool_step_length : forall p q, pool_step p q -> length q = length p.
Proof. intros p q H. induction H; simpl; congruence. Qed.

Lemma reachable_length : forall p q, reachable p q -> length q = length p.
Proof.
intros p q H. induction H as [|p p' q Hs _ IH]; [reflexivity|].
rewrite IH. now apply pool_step_length.
Qed.

Lemma in_flight_le_length : forall p, in_flight p <= length p.
Proof. intros p. unfold in_flight. apply filter_length_le. Qed.

End TaskFacts.

(* ================================================================== *)
(** * The Entity Resolver *)
(* ================================================================== *)

Section ResolverFacts.

Import Resolver.

Local Open Scope N_scope.

(** Decide the comparisons of a goal one after the other. *)
Ltac compare_all :=
  repeat match goal with
         | |- context [?a <=? ?b] =>
             destruct (N.leb_spec a b); try lia
         | |- context [?a =? ?b] =>
             destruct (N.eqb_spec a b); try lia
         end.

(** Casefolding neither makes nor removes a space. *)
Lemma isspace_casefold : forall c, isspace (casefold_char c) = isspace c.
Proof.
intros c. unfold casefold_char.
destruct ((65 <=? c) && (c <=? 90)) eqn:H; [|reflexivity].
apply andb_true_iff in H as [H1 H2].
apply N.leb_le in H1. apply N.leb_le in H2.
unfold isspace. compare_all; reflexivity.
Qed.

Lemma lstrip_casefold : forall s, lstrip (casefold s) = casefold (lstrip s).
Proof.
induction s as [|c s IH]; [reflexivity|].
simpl. rewrite isspace_casefold. destruct (isspace c); [exact IH|reflexivity].
Qed.

Lemma strip_casefold : forall s, strip (casefold s) = casefold (strip s).
Proof.
intros s. unfold strip, rstrip, casefold.
fold (casefold s). rewrite lstrip_casefold. unfold casefold.
rewrite <- map_rev. fold (casefold (rev (lstrip s))).
rewrite lstrip_casefold. unfold casefold. now rewrite map_rev.
Qed.

(** Names that differ only in the case of their letters have one key. *)
Lemma canonical_key_case : forall name1 name2,
  casefold name1 = casefold name2 ->
  canonical_key name1 = canonical_key name2.
Proof.
intros name1 name2 H. unfold canonical_key.
now rewrite <- !strip_casefold, H.
Qed.

Lemma lstrip_all_spaces : forall o, forallb isspace o = true -> lstrip o = [].
Proof.
intros o H. rewrite <- (app_nil_r o). now rewrite lstrip_spaces.
Qed.

Lemma lstrip_app : forall s o,
  forallb isspace o = true ->
  lstrip (s ++ o) = match lstrip s with [] => [] | l => l ++ o end.
Proof.
induction s as [|c s IH]; intros o H; simpl.
- now apply lstrip_all_spaces.
- destruct (isspace c); [now apply IH|reflexivity].
Qed.

(** Whitespace around a name does not change its key. *)
Lemma canonical_key_surrounding : forall o1 o2 name,
  forallb isspace o1 = true -> forallb isspace o2 = true ->
  canonical_key (o1 ++ name ++ o2) = canonical_key name.
Proof.
intros o1 o2 name H1 H2. unfold canonical_key. f_equal. f_equal.
unfold strip. rewrite lstrip_spaces by assumption.
rewrite lstrip_app by assumption.
destruct (lstrip name) as [|c l]; [reflexivity|].
now apply rstrip_spaces.
Qed.

Lemma collapse_cons : forall c d s,
  collapse_whitespace (c :: d :: s) =
  if isspace c then
    if isspace d then collapse_whitespace (d :: s)
    else 32 :: collapse_whitespace (d :: s)
  else c :: collapse_whitespace (d :: s).
Proof. reflexivity. Qed.

Lemma collapse_run : forall ws rest,
  ws <> [] -> forallb isspace ws = true ->
  collapse_whitespace (ws ++ rest) =
  match rest with
  | [] => [32]
  | d :: _ => if isspace d then collapse_whitespace rest
              else 32 :: collapse_whitespace rest
  end.
Proof.
induction ws as [|c ws IH]; intros rest Hne H; [congruence|].
simpl in H. apply andb_true_iff in H as [Hc Hws].
destruct ws as [|c' ws].
- simpl. rewrite Hc. reflexivity.
- change ((c :: c' :: ws) ++ rest) with (c :: c' :: (ws ++ rest)).
  rewrite collapse_cons, Hc.
  assert (Hc' : isspace c' = true)
    by (simpl in Hws; now apply andb_true_iff in Hws as [Hc' _]).
  rewrite Hc'.
  change (c' :: ws ++ rest) with ((c' :: ws) ++ rest).
  apply IH; [discriminate|exact Hws].
Qed.

(** One run of whitespace inside a text collapses as any other. *)
Lemma collapse_inside : forall a ws1 ws2 b,
  ws1 <> [] -> ws2 <> [] ->
  forallb isspace ws1 = true -> forallb isspace ws2 = true ->
  collapse_whitespace (a ++ ws1 ++ b) = collapse_whitespace (a ++ ws2 ++ b).
Proof.
intros a ws1 ws2 b Hn1 Hn2 H1 H2.
induction a as [|c a IH].
- simpl. now rewrite !collapse_run.
- destruct a as [|d a].
  + destruct ws1 as [|x1 ws1]; [congruence|].
    destruct ws2 as [|x2 ws2]; [congruence|].
    change ([c] ++ (x1 :: ws1) ++ b) with (c :: x1 :: (ws1 ++ b)).
    change ([c] ++ (x2 :: ws2) ++ b) with (c :: x2 :: (ws2 ++ b)).
    rewrite !collapse_cons.
    change (x1 :: ws1 ++ b) with ([] ++ (x1 :: ws1) ++ b).
    change (x2 :: ws2 ++ b) with ([] ++ (x2 :: ws2) ++ b).
    rewrite IH.
    simpl in H1, H2.
    apply andb_true_iff in H1 as [H1 _]. apply andb_true_iff in H2 as [H2 _].
    now rewrite H1, H2.
  + change ((c :: d :: a) ++ ws1 ++ b) with (c :: d :: (a ++ ws1 ++ b)).
    change ((c :: d :: a) ++ ws2 ++ b) with (c :: d :: (a ++ ws2 ++ b)).
    rewrite !collapse_cons.
    change (d :: a ++ ws1 ++ b) with ((d :: a) ++ ws1 ++ b).
    change (d :: a ++ ws2 ++ b) with ((d :: a) ++ ws2 ++ b).
    now rewrite IH.
Qed.

Lemma forallb_isspace_casefold : forall ws,
  forallb isspace (casefold ws) = forallb isspace ws.
Proof.
induction ws as [|c ws IH]; [reflexivity|].
simpl. now rewrite isspace_casefold, IH.
Qed.

(** Names that differ only in the length of a run of whitespace between
    two of their characters have one key. *)
Lemma canonical_key_inside : forall x a ws1 ws2 b y,
  isspace x = false -> isspace y = false ->
  ws1 <> [] -> ws2 <> [] ->
  forallb isspace ws1 = true -> forallb isspace ws2 = true ->
  canonical_key (x :: a ++ ws1 ++ b ++ [y])
  = canonical_key (x :: a ++ ws2 ++ b ++ [y]).
Proof.
intros x a ws1 ws2 b y Hx Hy Hn1 Hn2 H1 H2. unfold canonical_key.
assert (Hs : forall ws,
          strip (x :: a ++ ws ++ b ++ [y]) = x :: a ++ ws ++ b ++ [y]).
{ intros ws.
  pose proof (strip_padded [] [] x (a ++ ws ++ b) y eq_refl eq_refl Hx Hy)
    as Hp.
  simpl in Hp. rewrite app_nil_r in Hp. rewrite <- !app_assoc in Hp.
  exact Hp. }
rewrite !Hs. unfold casefold.
change (map casefold_char (x :: a ++ ws1 ++ b ++ [y]))
  with (casefold_char x :: map casefold_char (a ++ ws1 ++ b ++ [y])).
change (map casefold_char (x :: a ++ ws2 ++ b ++ [y]))
  with (casefold_char x :: map casefold_char (a ++ ws2 ++ b ++ [y])).
rewrite !map_app.
change (casefold_char x :: map casefold_char a ++ ?u)
  with ((casefold_char x :: map casefold_char a) ++ u).
apply (collapse_inside (casefold_char x :: map casefold_char a)).
- destruct ws1; [congruence|discriminate].
- destruct ws2; [congruence|discriminate].
- fold (casefold ws1). now rewrite forallb_isspace_casefold.
- fold (casefold ws2). now rewrite forallb_isspace_casefold.
Qed.

Variable similar : str -> entity_node -> bool.

Lemma find_app_none : forall (A : Type) (f : A -> bool) l l',
find f l = None -> find f (l ++ l') = find f l'.
Proof.
intros A f l l'. induction l as [|x l IH]; simpl; [reflexivity|].
destruct (f x); [discriminate|]. exact IH.
Qed.

(** Two raw names with the same canonical key resolve, one after the
  other, to the same node. *)
Lemma resolve_same_key : forall g name1 name2 type,
canonical_key name1 = canonical_key name2 ->
fst (resolve similar (snd (resolve similar g name1 type)) name2 type)
= fst (resolve similar g name1 type).
Proof.
intros g name1 name2 type Hk. unfold resolve. rewrite <- Hk.
destruct (find (fun n => str_eqb (canonical_name n) (canonical_key name1)) g)
as [n|] eqn:Hexact.
- simpl. now rewrite Hexact.
- destruct (find (fun n => str_eqb (node_type n) type
                         && similar (canonical_key name1) n) g)
  as [n|] eqn:Hsim.
+ simpl. now rewrite Hexact, Hsim.
+ simpl. rewrite (find_app_none _ _ _ _ Hexact). simpl.
  now rewrite str_eqb_refl.
Qed.

End ResolverFacts.

(* ================================================================== *)
(** * Fenced responses *)
(* ================================================================== *)

Section FenceFacts.

Local Open Scope N_scope.

(** A fenced block begins and ends with a backquote. *)
Lemma fenced_shape : forall tagged inner,
  exists m, fenced tagged inner = 96 :: m ++ [96].
Proof.
intros tagged inner. unfold fenced.
destruct tagged.
- exists ([96; 96; 106; 115; 111; 110] ++ inner ++ [96; 96]).
  change (py "```json") with ([96; 96; 96; 106; 115; 111; 110]).
  change (py "```") with ([96; 96] ++ [96]).
  cbn [app]. now rewrite <- !app_assoc.
- exists ([96; 96] ++ inner ++ [96; 96]).
  change (py "```") with ([96; 96] ++ [96]) at 2.
  change (py "```") with ([96; 96; 96]).
  cbn [app]. now rewrite <- !app_assoc.
Qed.

(** [strip] removes what surrounds the block. *)
Lemma strip_fenced : forall out1 out2 tagged inner,
  forallb isspace out1 = true -> forallb isspace out2 = true ->
  strip (out1 ++ fenced tagged inner ++ out2) = fenced tagged inner.
Proof.
intros out1 out2 tagged inner H1 H2.
destruct (fenced_shape tagged inner) as [m Hm]. rewrite Hm.
now apply strip_padded.
Qed.

(** The slices remove the fences, when what is inside does not begin
    with the letter [j] (which an untagged fence would take for its
    tag). *)
Lemma strip_fences_fenced : forall tagged inner,
  (forall c rest, inner = c :: rest -> (c =? 106) = false) ->
  strip_fences (fenced tagged inner) = inner.
Proof.
intros tagged inner Hj. unfold strip_fences, fenced. destruct tagged.
- rewrite startswith_app.
  exact (slice_middle (py "```json") inner (py "```")).
- assert (Hno : startswith (py "```" ++ inner ++ py "```") (py "```json")
                = false).
  { destruct inner as [|c rest]; [reflexivity|].
    change (startswith (py "```" ++ (c :: rest) ++ py "```") (py "```json"))
      with ((106 =? c) && startswith (rest ++ py "```") (py "son")).
    rewrite N.eqb_sym, (Hj c rest eq_refl). reflexivity. }
  rewrite Hno, startswith_app.
  exact (slice_middle (py "```") inner (py "```")).
Qed.

(** What is inside the fences of a block around a JSON text, with
    whitespace to either side of the text, is decoded as the text is. *)
Lemma loads_fenced : forall L out1 out2 tagged pad1 pad2 s,
  forallb isspace out1 = true -> forallb isspace out2 = true ->
  blank pad1 -> blank pad2 ->
  loads L s <> Failed Malformed ->
  loads L (strip_fences
             (strip (out1 ++ fenced tagged (pad1 ++ s ++ pad2) ++ out2)))
  = loads L s.
Proof.
intros L out1 out2 tagged pad1 pad2 s Ho1 Ho2 Hp1 Hp2 Hs.
rewrite strip_fenced by assumption.
rewrite strip_fences_fenced; [now apply loads_padded|].
intros c rest Hc.
destruct pad1 as [|p pad1].
- destruct (loads_first_char L s Hs) as [c' [s' [-> [Hj _]]]].
  simpl in Hc. now injection Hc as <- _.
- simpl in Hc. injection Hc as <- _.
  apply (blank_head_eqb p pad1 106 Hp1). reflexivity.
Qed.

End FenceFacts.

(* ================================================================== *)
(** * More about [strip] and [split] *)
(* ================================================================== *)

Section MoreStringFacts.

Local Open Scope N_scope.

Lemma str_eqb_true : forall a b, str_eqb a b = true -> a = b.
Proof.
induction a as [|x a IH]; destruct b as [|y b]; simpl; intros H;
  try discriminate; [reflexivity|].
apply andb_true_iff in H as [Hx Hab].
apply N.eqb_eq in Hx. apply IH in Hab. congruence.
Qed.







Lemma strip_spaces : forall o, forallb isspace o = true -> strip o = [].
Proof.
intros o H. unfold strip. now rewrite (lstrip_all_spaces o H).
Qed.


(** The lines of a text of spaces are texts of spaces. *)
Lemma split_spaces : forall sep s l,
  forallb isspace s = true -> In l (split sep s) -> forallb isspace l = true.
Proof.
intros sep. induction s as [|c s IH]; intros l Hs H; simpl in H.
- now destruct H as [<-|[]].
- simpl in Hs. apply andb_true_iff in Hs as [Hc Hs].
  destruct (c =? sep).
  + destruct H as [<-|H]; [reflexivity|now apply IH].
  + destruct (split sep s) as [|l0 ls] eqn:Hsp.
    * destruct H as [<-|[]]. simpl. now rewrite Hc.
    * destruct H as [<-|H].
      -- simpl. rewrite Hc. apply IH; [exact Hs|now left].
      -- apply IH; [exact Hs|now right].
Qed.

Lemma insights_of_spaces : forall lines,
  (forall l, In l lines -> forallb isspace l = true) ->
  insights_of lines = [].
Proof.
intros lines H. unfold insights_of.
replace (filter
           (fun insight =>
              truthy (strip insight)
              && negb (startswith (strip insight) (py "#"))) lines)
  with (@nil str); [reflexivity|].
symmetry. induction lines as [|l ls IH]; [reflexivity|].
simpl. rewrite (strip_spaces l) by (apply H; now left). simpl.
apply IH. intros l' Hl'. apply H. now right.
Qed.

End MoreStringFacts.

(* ================================================================== *)
(** * More about the client *)
(* ================================================================== *)

Section MoreClientFacts.

Variable E : environment.
Variable self : client.

(** What a completion returns, read off the reply; only the log may
    differ from the world after the request. *)
Lemma generate_completion_value : forall prompt system_prompt w,
  exists w1,
    generate_completion E self prompt system_prompt w
    = (Returned
         (match reply_field (py "response")
                  (backend E (completion_request self prompt system_prompt
                                :: sent w)) with
          | Some v => v
          | None => JStr []
          end), w1)
    /\ sent w1 = completion_request self prompt system_prompt :: sent w
    /\ graph w1 = graph w /\ readings w1 = readings w
    /\ sleeps w1 = sleeps w.
Proof.
intros prompt system_prompt w. rewrite generate_completion_run.
fold (completion_request self prompt system_prompt).
unfold reply_field.
destruct (backend E _) as [e|status b].
{ eexists. split; [reflexivity|]. repeat split. }
destruct (status =? 200)%Z.
2:{ destruct b as [e|j]; [|destruct j];
      (eexists; split; [reflexivity|]; repeat split). }
destruct b as [e|j].
{ eexists. split; [reflexivity|]. repeat split. }
destruct j; eexists; (split; [reflexivity|]); repeat split.
Qed.

(** The extraction after a completion, whatever it returned. *)
Lemma extract_world : forall event_text w,
  sent (snd (extract_entities_and_relationships E self event_text w))
  = extraction_request self event_text :: sent w.
Proof.
intros event_text w.
destruct (generate_completion_value (ExtractionPrompt event_text)
            ExtractionSystem w) as [w1 [Hg [Hs _]]].
fold (extraction_request self event_text) in Hs.
match type of Hg with _ = (Returned ?v, _) => remember v as answer end.
destruct (is_str answer) eqn:Hstr.
- destruct answer; try discriminate Hstr.
  rewrite (extract_after_completion _ _ _ _ _ _ Hg).
  destruct (loads (interpreter E) (strip_fences (strip s))) as [v|[| |]];
    exact Hs.
- rewrite (extract_after_non_string _ _ _ _ _ _ Hg); [exact Hs|].
  intros s ->. discriminate Hstr.
Qed.

Lemma analyze_after_non_string : forall events_summary w response w1,
  generate_completion E self (AnalysisPrompt events_summary) AnalysisSystem w
  = (Returned response, w1) ->
  is_str response = false ->
  analyze_patterns E self events_summary w = (Raised AttributeError, w1).
Proof.
intros events_summary w response w1 H Hn.
unfold analyze_patterns.
rewrite (@bind_returned _ _ _ _ _ _ _ H).
destruct response; try reflexivity. discriminate Hn.
Qed.

Lemma analyze_world : forall events_summary w,
  sent (snd (analyze_patterns E self events_summary w))
  = analysis_request self events_summary :: sent w.
Proof.
intros events_summary w.
destruct (generate_completion_value (AnalysisPrompt events_summary)
            AnalysisSystem w) as [w1 [Hg [Hs _]]].
fold (analysis_request self events_summary) in Hs.
match type of Hg with _ = (Returned ?v, _) => remember v as answer end.
destruct (is_str answer) eqn:Hstr.
- destruct answer; try discriminate Hstr.
  now rewrite (analyze_after_completion _ _ _ _ _ _ Hg).
- now rewrite (analyze_after_non_string _ _ _ _ Hg Hstr).
Qed.

Lemma generate_embeddings_world : forall text w,
  sent (snd (generate_embeddings E self text w))
  = embeddings_request self text :: sent w.
Proof.
intros text w. rewrite generate_embeddings_run.
fold (embeddings_request self text).
destruct (backend E _) as [e|status b]; [reflexivity|].
destruct (status =? 200)%Z; [|reflexivity].
destruct b as [e|j]; [reflexivity|]. destruct j; reflexivity.
Qed.

(** The text of a completion that failed, or that answered with spaces
    only, is a text of spaces. *)
Lemma blank_completion : forall prompt system_prompt w,
  let reply := backend E (completion_request self prompt system_prompt
                            :: sent w) in
  reply_field (py "response") reply = None
  \/ (exists text, reply_field (py "response") reply = Some (JStr text)
                   /\ forallb isspace text = true) ->
  exists text w1,
    generate_completion E self prompt system_prompt w
    = (Returned (JStr text), w1)
    /\ forallb isspace text = true.
Proof.
intros prompt system_prompt w reply H. subst reply.
destruct (generate_completion_value prompt system_prompt w)
  as [w1 [Hg _]].
destruct H as [H|[text [H Ht]]]; rewrite H in Hg.
- now exists [], w1.
- now exists text, w1.
Qed.

End MoreClientFacts.

(* ================================================================== *)
(** * More about the clean-up of a response *)
(* ================================================================== *)

Section MoreFenceFacts.

Local Open Scope N_scope.

(** After an opening fence, the slice drops the last three characters
    of the response, whatever they are. *)
Lemma strip_fences_cuts : forall tagged (m q : str),
  length q = 3%nat ->
  (tagged = false -> startswith (m ++ q) (py "json") = false) ->
  strip_fences (opening_fence tagged ++ m ++ q) = m.
Proof.
intros tagged m q Hq Hj. unfold strip_fences, opening_fence.
destruct tagged.
- rewrite startswith_app.
  transitivity (slice (length (py "```json")) (length q)
                  (py "```json" ++ m ++ q)).
  + now rewrite Hq.
  + apply slice_middle.
- assert (Hno : startswith (py "```" ++ m ++ q) (py "```json") = false).
  { change (startswith (py "```" ++ m ++ q) (py "```json"))
      with (startswith (m ++ q) (py "json")).
    now apply Hj. }
  rewrite Hno, startswith_app.
  transitivity (slice (length (py "```")) (length q) (py "```" ++ m ++ q)).
  + now rewrite Hq.
  + apply slice_middle.
Qed.

(** A response that opens with a fence and ends with a character that
    is not a space is left alone by [strip]. *)
Lemma strip_opening : forall tagged (m : str) (b : N),
  isspace b = false ->
  strip (opening_fence tagged ++ m ++ [b]) = opening_fence tagged ++ m ++ [b].
Proof.
intros tagged m b Hb.
assert (H : exists rest, opening_fence tagged = 96 :: rest).
{ destruct tagged; eexists; reflexivity. }
destruct H as [rest Hrest]. rewrite Hrest.
pose proof (strip_padded [] [] 96 (rest ++ m) b eq_refl eq_refl eq_refl Hb)
  as Hp.
simpl in Hp. rewrite app_nil_r, <- app_assoc in Hp. exact Hp.
Qed.

(** A JSON text is not taken for a fenced block. *)
Lemma strip_fences_json : forall L s,
  loads L s <> Failed Malformed -> strip_fences s = s.
Proof.
intros L s H. destruct (loads_first_char L s H) as [c [s' [-> [_ Hc]]]].
unfold strip_fences.
change (startswith (c :: s') (py "```json"))
  with ((96 =? c) && startswith s' (py "``json")).
change (startswith (c :: s') (py "```"))
  with ((96 =? c) && startswith s' (py "``")).
rewrite N.eqb_sym, Hc. reflexivity.
Qed.



End MoreFenceFacts.

(* ================================================================== *)
(** * More about the engine *)
(* ================================================================== *)

Section MoreEngineFacts.

Variable E : environment.

(** One processing cycle, record by record. *)
Lemma run_processing_cycle_exact : forall w,
  run_processing_cycle E w =
  (Returned tt,
   {| sent := sent w;
      log := log w ++ cycle_trace E (readings w);
      readings := 4 + readings w;
      sleeps := sleeps w;
      graph := graph w |}).
Proof.
intros w.
transitivity
  (Returned tt,
   {| sent := sent w;
      log := ((((log w
                 ++ [(INFO, StartingProcessingCycle (clock E (readings w)))])
                ++ [(DEBUG,
                     ProcessingSensorData
                       (Json (sample_data (clock E (S (readings w))))))])
               ++ [(INFO,
                    ProcessedData (JStr (py "temperature"))
                      (JStr (py "temp_sensor_01")))])
              ++ [(INFO, InsightsGenerated)])
             ++ [(INFO, ProcessingCycleCompleted)];
      readings := 4 + readings w;
      sleeps := sleeps w;
      graph := graph w |}).
- vm_compute. reflexivity.
- unfold cycle_trace. rewrite <- !app_assoc. reflexivity.
Qed.

Lemma initialize_services_exact : forall w,
  initialize_services w =
  (Returned true,
   {| sent := sent w;
      log := log w ++ skipn 2 startup_trace;
      readings := readings w;
      sleeps := sleeps w;
      graph := graph w |}).
Proof.
intros w.
transitivity
  (Returned true,
   {| sent := sent w;
      log := (((((((log w ++ [(INFO, InitializingServices)])
                   ++ [(INFO, TestingConnection (py "Neo4j"))])
                  ++ [(INFO, ConnectionSuccessful (py "Neo4j"))])
                 ++ [(INFO, TestingConnection (py "Kafka"))])
                ++ [(INFO, ConnectionSuccessful (py "Kafka"))])
               ++ [(INFO, TestingConnection (py "Ollama"))])
              ++ [(INFO, ConnectionSuccessful (py "Ollama"))])
             ++ [(INFO, AllServicesInitialized)];
      readings := readings w;
      sleeps := sleeps w;
      graph := graph w |}).
- vm_compute. reflexivity.
- unfold startup_trace. cbn [skipn]. rewrite <- !app_assoc. reflexivity.
Qed.

(** One round of the loop, record by record. *)
Lemma main_loop_round_exact : forall iterations cycle_count w,
  main_loop E (S iterations) cycle_count w =
  if sigint E (sleeps w) then
    (Signalled KeyboardInterrupt, after_round E (S cycle_count) w)
  else main_loop E iterations (S cycle_count) (after_round E (S cycle_count) w).
Proof.
intros iterations cycle_count w.
cbn [main_loop]. unfold bind at 1. unfold logging at 1.
unfold bind at 1. rewrite run_processing_cycle_exact.
cbn [sent log readings sleeps graph].
unfold bind at 1. unfold asyncio_sleep.
cbn [sent log readings sleeps graph].
unfold after_round, round_trace.
rewrite <- app_assoc. cbn [app].
destruct (sigint E (sleeps w)); reflexivity.
Qed.

(** The loop while Ctrl-C stays away. *)
Lemma main_loop_trace : forall iterations cycle_count w,
  (forall j, j < iterations -> sigint E (sleeps w + j) = false) ->
  exists w',
    main_loop E iterations cycle_count w = (StillRunning, w')
    /\ log w' = log w
                ++ rounds_trace E iterations (S cycle_count) (readings w)
    /\ readings w' = 4 * iterations + readings w
    /\ sleeps w' = iterations + sleeps w
    /\ sent w' = sent w /\ graph w' = graph w.
Proof.
induction iterations as [|n IH]; intros cycle_count w Hq.
- exists w. split; [reflexivity|]. simpl. rewrite app_nil_r. repeat split.
- rewrite main_loop_round_exact.
  assert (H0 : sigint E (sleeps w) = false)
    by (rewrite <- (Nat.add_0_r (sleeps w)); apply Hq; lia).
  rewrite H0.
  destruct (IH (S cycle_count) (after_round E (S cycle_count) w))
    as [w' [Hl [Hlog [Hr [Hs [Hsent Hg]]]]]].
  { intros j Hj. cbn [after_round sleeps].
    replace (S (sleeps w) + j) with (sleeps w + S j) by lia.
    apply Hq. lia. }
  exists w'. split; [exact Hl|].
  cbn [after_round sent log readings sleeps graph] in *.
  repeat split; try assumption; try lia.
  rewrite Hlog. cbn [rounds_trace]. now rewrite <- app_assoc.
Qed.

(** [run] with every required variable set, up to its loop. *)
Lemma run_configured_exact : forall iterations w,
  filter (unset E) required_vars = [] ->
  run E iterations w =
  try_finally
    (try_except_interrupt
       (main_loop E iterations 0)
       (logging INFO ShutdownSignalReceived)
       (fun e => logging ERROR (FatalError e) ;; sys_exit 1))
    (logging INFO EngineStopped)
    {| sent := sent w;
       log := log w ++ startup_trace;
       readings := readings w;
       sleeps := sleeps w;
       graph := graph w |}.
Proof.
intros iterations w Hf.
unfold run, check_environment. rewrite Hf.
cbv [bind logging ret negb]. cbn [sent log readings sleeps graph].
rewrite initialize_services_exact.
cbn [sent log readings sleeps graph].
unfold startup_trace. cbn [skipn]. rewrite <- !app_assoc. reflexivity.
Qed.

(** The variables [check_environment] finds missing are the required
    ones that are not set or are set to the empty string. *)
Lemma unset_iff : forall var,
  unset E var = true <-> getenv E var = None \/ getenv E var = Some [].
Proof.
intros var. unfold unset.
destruct (getenv E var) as [[|c v]|]; simpl; split; auto;
  try discriminate; intros [H|H]; discriminate.
Qed.

Lemma check_environment_true : forall w,
  fst (check_environment E w) = Returned true ->
  forall var, In var required_vars ->
    exists v, getenv E var = Some v /\ v <> [].
Proof.
intros w Hok var Hin. unfold check_environment in Hok.
destruct (filter (unset E) required_vars) as [|m ms] eqn:Hf;
  [|discriminate Hok].
destruct (unset E var) eqn:Hu.
- assert (Hm : In var (filter (unset E) required_vars))
    by (apply filter_In; now split).
  rewrite Hf in Hm. destruct Hm.
- unfold unset in Hu. destruct (getenv E var) as [[|c v]|];
    try discriminate.
  exists (c :: v). split; [reflexivity|discriminate].
Qed.

(** The places of the configuration are those of the required
    variables. *)
Lemma config_place_cases : forall var section key,
  Startup.config_place var = Some (section, key) ->
  (var, section, key) = (py "NEO4J_URI", py "neo4j", py "uri")
  \/ (var, section, key) = (py "NEO4J_USERNAME", py "neo4j", py "username")
  \/ (var, section, key) = (py "NEO4J_PASSWORD", py "neo4j", py "password")
  \/ (var, section, key)
     = (py "KAFKA_BOOTSTRAP_SERVERS", py "kafka", py "bootstrap_servers")
  \/ (var, section, key) = (py "OLLAMA_BASE_URL", py "ollama", py "base_url").
Proof.
intros var section key H. unfold Startup.config_place in H.
destruct (str_eqb var (py "NEO4J_URI")) eqn:H1.
{ apply str_eqb_true in H1. injection H as <- <-. subst var. auto. }
destruct (str_eqb var (py "NEO4J_USERNAME")) eqn:H2.
{ apply str_eqb_true in H2. injection H as <- <-. subst var. auto. }
destruct (str_eqb var (py "NEO4J_PASSWORD")) eqn:H3.
{ apply str_eqb_true in H3. injection H as <- <-. subst var. auto. }
destruct (str_eqb var (py "KAFKA_BOOTSTRAP_SERVERS")) eqn:H4.
{ apply str_eqb_true in H4. injection H as <- <-. subst var. auto. }
destruct (str_eqb var (py "OLLAMA_BASE_URL")) eqn:H5.
{ apply str_eqb_true in H5. injection H as <- <-. subst var. auto 6. }
discriminate H.
Qed.

Lemma config_place_required : forall var section key,
  Startup.config_place var = Some (section, key) -> In var required_vars.
Proof.
intros var section key H.
destruct (config_place_cases _ _ _ H) as [H'|[H'|[H'|[H'|H']]]];
  injection H' as -> _ _; unfold required_vars; simpl; auto 6.
Qed.

Lemma config_entry_set : forall var section key v,
  Startup.config_place var = Some (section, key) ->
  getenv E var = Some v ->
  Startup.config_entry (fst (Startup._load_config E)) section key
  = Some (JStr v).
Proof.
intros var section key v H Hv.
destruct (config_place_cases _ _ _ H) as [H'|[H'|[H'|[H'|H']]]];
  injection H' as -> -> ->;
  unfold Startup._load_config, Startup.getenv_default; rewrite Hv;
  reflexivity.
Qed.

End MoreEngineFacts.

Section TraceFacts.

Variable E : environment.

Lemma cycle_numbers_app : forall a b,
  cycle_numbers (a ++ b) = cycle_numbers a ++ cycle_numbers b.
Proof.
induction a as [|[l m] a IH]; intros b; [reflexivity|].
destruct m; simpl; rewrite IH; reflexivity.
Qed.

Lemma cycle_numbers_rounds : forall count first r,
  cycle_numbers (rounds_trace E count first r) = seq first count.
Proof.
induction count as [|n IH]; intros first r; [reflexivity|].
cbn [rounds_trace seq]. rewrite cycle_numbers_app, IH. reflexivity.
Qed.

Lemma no_alarm_in_rounds : forall count first r,
  filter is_alarm (rounds_trace E count first r) = [].
Proof.
induction count as [|n IH]; intros first r; [reflexivity|].
cbn [rounds_trace]. rewrite filter_app, IH. reflexivity.
Qed.

End TraceFacts.

(* ================================================================== *)
(** * The claims about the client *)
(* ================================================================== *)

(** C10. The model-backend client is total at its interface:
    [generate_completion] returns -- it never lets an exception out --
    and what it returns is the empty string when the call raised, when the
    status is not 200, when reading the body raised and when the body is a
    dict without the key ["response"]; [generate_embeddings] likewise,
    with the empty list and the key ["embedding"]. *)
Theorem client_is_total : forall (E : environment) (self : client),
  (forall prompt system_prompt w,
     exists v w',
       generate_completion E self prompt system_prompt w = (Returned v, w')
       /\ match backend E ({| req_endpoint := ApiGenerate;
                              req_model := model self;
                              req_prompt := prompt;
                              req_system := system_prompt |} :: sent w) with
          | PostRaises _ => v = JStr []
          | Response status b =>
              if (status =? 200)%Z then
                match b with
                | BodyRaises _ => v = JStr []
                | BodyJson (JDict d) =>
                    match dict_lookup (py "response") d with
                    | None => v = JStr []
                    | Some x => v = x
                    end
                | BodyJson _ => v = JStr []
                end
              else v = JStr []
          end)
  /\
  (forall text w,
     exists v w',
       generate_embeddings E self text w = (Returned v, w')
       /\ match backend E ({| req_endpoint := ApiEmbeddings;
                              req_model := embed_model self;
                              req_prompt := EmbeddingText text;
                              req_system := NoSystem |} :: sent w) with
          | PostRaises _ => v = JList []
          | Response status b =>
              if (status =? 200)%Z then
                match b with
                | BodyRaises _ => v = JList []
                | BodyJson (JDict d) =>
                    match dict_lookup (py "embedding") d with
                    | None => v = JList []
                    | Some x => v = x
                    end
                | BodyJson _ => v = JList []
                end
              else v = JList []
          end).
Proof.
  intros E self. split.
  - intros prompt system_prompt w. rewrite generate_completion_run.
    destruct (backend E _) as [e|status b]; [eauto|].
    destruct (status =? 200)%Z; [|eauto].
    destruct b as [e|j]; [eauto|].
    destruct j; eauto.
    destruct (dict_lookup (py "response") items); eauto.
  - intros text w. rewrite generate_embeddings_run.
    destruct (backend E _) as [e|status b]; [eauto|].
    destruct (status =? 200)%Z; [|eauto].
    destruct b as [e|j]; [eauto|].
    destruct j; eauto.
    destruct (dict_lookup (py "embedding") items); eauto.
Qed.

(** C5. Whatever text the model answers, [analyze_patterns] returns at
    most ten insights; each of them is a line of the answer, stripped,
    that is not empty and does not start with [#]; and when the answer has
    ten candidate lines or more (fifteen, say) it returns exactly ten. *)
Theorem analyze_patterns_caps_insights :
  forall (E : environment) (self : client) events_summary w response w1,
    generate_completion E self (AnalysisPrompt events_summary) AnalysisSystem w
    = (Returned (JStr response), w1) ->
    exists insights,
      analyze_patterns E self events_summary w = (Returned insights, w1)
      /\ length insights <= 10
      /\ (forall insight, In insight insights ->
            exists line,
              In line (split LF response) /\ insight = strip line
              /\ insight <> [] /\ startswith insight (py "#") = false)
      /\ (10 <= length (filter candidate (split LF response)) ->
          length insights = 10).
Proof.
  intros E self events_summary w response w1 H.
  exists (insights_of (split LF response)). split; [|split; [|split]].
  - now apply analyze_after_completion.
  - apply insights_of_length.
  - apply insights_of_sound.
  - apply insights_of_full.
Qed.

Lemma analyze_patterns_caps_insights_witness :
  length (filter candidate (split LF Examples.fifteen_insights)) = 15
  /\ exists insights,
      analyze_patterns (Examples.saying Examples.fifteen_insights)
        default_client (py "events") empty_world
      = (Returned insights,
         with_request (analysis_request default_client (py "events"))
           empty_world)
      /\ length insights <= 10
      /\ (forall insight, In insight insights ->
            exists line,
              In line (split LF Examples.fifteen_insights)
              /\ insight = strip line
              /\ insight <> [] /\ startswith insight (py "#") = false)
      /\ (10 <= length (filter candidate (split LF Examples.fifteen_insights))
          -> length insights = 10).
Proof.
  split; [reflexivity|].
  apply (@analyze_patterns_caps_insights
           (Examples.saying Examples.fifteen_insights) default_client
           (py "events") empty_world Examples.fifteen_insights).
  reflexivity.
Defined.




(** C9, as it is stated, fails: an integer of 4301 digits is JSON -- an
    interpreter whose digit limit is lifted decodes it -- and on that
    answer the extraction does not return the decoded value: with the
    limit of 4300 digits [json.loads] raises [ValueError], which leaves
    the function. *)
Lemma long_integer_is_not_returned :
  loads Examples.any_digits (strip_fences (strip Examples.ones))
  = Decoded (JInt (int_of_digits Examples.ones))
  /\ extract_entities_and_relationships (Examples.saying Examples.ones)
       default_client (py "the lamp is on") empty_world
     = (Raised ValueError,
        with_request (extraction_request default_client (py "the lamp is on"))
          empty_world).
Proof.
  split; vm_compute; reflexivity.
Qed.

(** C9, amended. When [json.loads] decodes the text the model answered,
    cleaned of its fences, [extract_entities_and_relationships] returns
    the decoded value as it is, whatever its shape: a bare number or an
    array as well as an object with the two lists. *)
Theorem decoded_value_is_returned_unchanged :
  forall (E : environment) (self : client) event_text w response w1 v,
    generate_completion E self (ExtractionPrompt event_text) ExtractionSystem w
    = (Returned (JStr response), w1) ->
    loads (interpreter E) (strip_fences (strip response)) = Decoded v ->
    extract_entities_and_relationships E self event_text w = (Returned v, w1).
Proof.
  intros E self event_text w response w1 v H Hv.
  now rewrite (extract_after_completion _ _ _ _ _ _ H), Hv.
Qed.

Lemma decoded_value_is_returned_unchanged_witness :
  (loads Examples.cpython (strip_fences (strip (py "42"))) = Decoded (JInt 42)
   /\ extract_entities_and_relationships (Examples.saying (py "42"))
        default_client (py "the lamp is on") empty_world
      = (Returned (JInt 42),
         with_request (extraction_request default_client (py "the lamp is on"))
           empty_world))
  /\
  (loads Examples.cpython (strip_fences (strip (py "[1, true]")))
   = Decoded (JList [JInt 1; JBool true])
   /\ extract_entities_and_relationships (Examples.saying (py "[1, true]"))
        default_client (py "the lamp is on") empty_world
      = (Returned (JList [JInt 1; JBool true]),
         with_request (extraction_request default_client (py "the lamp is on"))
           empty_world)).
Proof.
  split; (split; [vm_compute; reflexivity|]).
  - apply (@decoded_value_is_returned_unchanged
             (Examples.saying (py "42")) default_client (py "the lamp is on")
             empty_world (py "42")); vm_compute; reflexivity.
  - apply (@decoded_value_is_returned_unchanged
             (Examples.saying (py "[1, true]")) default_client
             (py "the lamp is on") empty_world (py "[1, true]"));
      vm_compute; reflexivity.
Defined.

(** C3, as the specification states it, fails: there is no attempt count
    of two or more that the extraction exhausts against a backend that
    cannot be reached -- it gives up after its first call. *)
Lemma extraction_never_retries :
  ~ exists attempts,
      2 <= attempts
      /\ exhausts_attempts attempts Examples.unreachable default_client.
Proof.
  intros [attempts [Hge H]].
  specialize (H (py "the lamp is on") empty_world).
  assert (Hone : requests_sent
            (extract_entities_and_relationships Examples.unreachable
               default_client (py "the lamp is on")) empty_world = 1)
    by reflexivity.
  rewrite H in Hone; [lia|].
  intros history. now exists ClientConnectionError.
Qed.

(** C3, amended. On a timeout or a transport failure of the completion
    call the extraction does not call again and does not wait: that one
    request is all it sends, it sleeps no more than before, the three
    records it adds to the log are the failure of the call and the two
    of the empty answer that does not parse, and it returns the empty
    extraction result. *)
Theorem transport_failure_gives_empty_result_at_once :
  forall (E : environment) (self : client) event_text w e,
    backend E (extraction_request self event_text :: sent w) = PostRaises e ->
    exists w',
      extract_entities_and_relationships E self event_text w
      = (Returned empty_result, w')
      /\ sent w' = extraction_request self event_text :: sent w
      /\ sleeps w' = sleeps w
      /\ log w' = log w ++ [(ERROR, ErrorCallingOllama e);
                            (ERROR, FailedToParseResponse JSONDecodeError);
                            (ERROR, ResponseWas [])]
      /\ readings w' = readings w
      /\ graph w' = graph w.
Proof.
  intros E self event_text w e H.
  pose proof (generate_completion_run E self (ExtractionPrompt event_text)
                ExtractionSystem w) as Hg.
  cbv zeta in Hg. fold (extraction_request self event_text) in Hg.
  rewrite H in Hg.
  rewrite (extract_after_completion _ _ _ _ _ _ Hg).
  change (strip_fences (strip [])) with (@nil N).
  rewrite loads_empty.
  eexists. split; [reflexivity|]. cbn [sent sleeps log readings graph with_log
                                        with_request].
  repeat split. now rewrite <- !app_assoc.
Qed.

Lemma transport_failure_gives_empty_result_at_once_witness :
  backend (Examples.slow_start Examples.one_entity)
    (extraction_request default_client (py "the lamp is on")
       :: sent empty_world) = PostRaises TimeoutError
  /\ exists w',
      extract_entities_and_relationships
        (Examples.slow_start Examples.one_entity) default_client
        (py "the lamp is on") empty_world
      = (Returned empty_result, w')
      /\ sent w' = extraction_request default_client (py "the lamp is on")
                     :: sent empty_world
      /\ sleeps w' = sleeps empty_world
      /\ log w' = log empty_world
                  ++ [(ERROR, ErrorCallingOllama TimeoutError);
                      (ERROR, FailedToParseResponse JSONDecodeError);
                      (ERROR, ResponseWas [])]
      /\ readings w' = readings empty_world
      /\ graph w' = graph empty_world.
Proof.
  split; [reflexivity|].
  apply (@transport_failure_gives_empty_result_at_once
           (Examples.slow_start Examples.one_entity) default_client
           (py "the lamp is on") empty_world TimeoutError).
  reflexivity.
Defined.

(* ================================================================== *)
(** * The claims about the engine, the task pool and the resolver *)
(* ================================================================== *)

(** [process_sensor_data] writes nothing to the graph store and sends
    nothing to the backend: creating the relationships and storing the
    results are comments in the source. Processing the same data again
    therefore finds and leaves the store as it was. (This is a fact about
    [process_sensor_data] only: the source has no operation that applies
    an extraction result to the graph.) *)
Lemma process_sensor_data_leaves_graph :
  forall (E : environment) (data : pyval) (w : world),
    let once := snd (process_sensor_data E data w) in
    let twice := snd (process_sensor_data E data once) in
    graph twice = graph once
    /\ graph once = graph w
    /\ sent twice = sent w.
Proof.
intros E data w once twice. subst once twice.
destruct (process_sensor_data_run E data w) as [l1 [H1 _]]. rewrite H1.
cbn [snd].
match goal with
| |- context [process_sensor_data E data ?x] =>
    destruct (process_sensor_data_run E data x) as [l2 [H2 _]]; rewrite H2
end.
repeat split.
Qed.

(** C6. What fails while one event is processed or one cycle runs is
    caught and logged there: [process_sensor_data], [generate_insights]
    and [run_processing_cycle] return whatever they are given, the first
    two with the error in the log when their body raised. [run] ends with
    [sys.exit(1)] exactly when a required environment variable is
    missing, and then before its first cycle; otherwise it is still
    running for as long as Ctrl-C has not arrived. *)
Theorem failures_are_contained : forall E : environment,
  (forall data w,
     exists w', process_sensor_data E data w = (Returned tt, w')
                /\ (is_dict data = false ->
                    log w' = log w
                             ++ [(DEBUG, ProcessingSensorData data);
                                 (ERROR,
                                  ErrorProcessingSensorData AttributeError)]))
  /\ (forall context w,
        exists v w', generate_insights E context w = (Returned v, w')
                     /\ (forall tag, context = Opaque tag ->
                         v = JDict []
                         /\ log w' = log w
                                     ++ [(ERROR,
                                          ErrorGeneratingInsights TypeError)]))
  /\ (forall w, exists w', run_processing_cycle E w = (Returned tt, w'))
  /\ (forall iterations w,
        fst (run E iterations w) = Signalled (SystemExit 1)
        <-> filter (unset E) required_vars <> [])
  /\ (forall iterations w,
        filter (unset E) required_vars <> [] ->
        sleeps (snd (run E iterations w)) = sleeps w)
  /\ (forall iterations w,
        filter (unset E) required_vars = [] ->
        (forall k, k < iterations -> sigint E (sleeps w + k) = false) ->
        fst (run E iterations w) = StillRunning
        /\ sleeps (snd (run E iterations w)) = sleeps w + iterations).
Proof.
intros E. repeat apply conj.
- intros data w.
  destruct (process_sensor_data_run E data w) as [l [H Hl]].
  eexists. split; [exact H|]. intros Hd. simpl. now rewrite (Hl Hd).
- intros context w.
  destruct (generate_insights_run E context w) as [v [w' [H [_ [_ [_ Hl]]]]]].
  exists v, w'. split; assumption.
- intros w. destruct (run_processing_cycle_run E w) as [w' [H _]].
  now exists w'.
- intros iterations w. pose proof (run_outcome E iterations w) as H.
  destruct (filter (unset E) required_vars) as [|v vs].
  + split; [|congruence]. intros Hx. destruct H as [H|H]; congruence.
  + split; [discriminate|]. intros _. exact H.
- intros iterations w Hf. now rewrite run_unconfigured.
- intros iterations w Hf Hq.
  destruct (run_goes_on E iterations w Hf Hq) as [w' [H Hs]].
  rewrite H. split; [reflexivity|exact Hs].
Qed.

Lemma failures_are_contained_witness :
  (exists w',
     process_sensor_data Examples.configured (Opaque 7) empty_world
     = (Returned tt, w'))
  /\ fst (run Examples.configured 3 empty_world) = StillRunning
  /\ fst (run Examples.unreachable 3 empty_world) = Signalled (SystemExit 1).
Proof.
destruct (failures_are_contained Examples.configured)
  as [Hp [_ [_ [_ [_ Hgo]]]]].
destruct (failures_are_contained Examples.unreachable)
  as [_ [_ [_ [Hexit _]]]].
split; [|split].
- destruct (Hp (Opaque 7) empty_world) as [w' [H _]]. now exists w'.
- apply Hgo; [reflexivity|]. intros k _. reflexivity.
- apply Hexit. discriminate.
Defined.

(** C7, as the specification states it, fails: with ten extractions
    pending, the calls in flight are not bounded by two. *)
Lemma ten_pending_exceed_two : ~ Tasks.bounded_by 2 (Tasks.pending 10).
Proof.
intros H. specialize (H (repeat Tasks.InFlight 10) (all_post 10)).
rewrite in_flight_all in H. lia.
Qed.

(** C7, amended. The client puts no bound on the calls in flight: every
    pending extraction posts its request as soon as it runs, so with [n]
    extractions pending all [n] calls can be in flight at once (and, there
    being [n] tasks, never more). *)
Theorem in_flight_calls_are_unbounded : forall n : nat,
  (exists p, Tasks.reachable (Tasks.pending n) p /\ Tasks.in_flight p = n)
  /\ (forall p, Tasks.reachable (Tasks.pending n) p -> Tasks.in_flight p <= n).
Proof.
intros n. split.
- exists (repeat Tasks.InFlight n). split; [apply all_post|apply in_flight_all].
- intros p H. apply reachable_length in H.
  unfold Tasks.pending in H. rewrite repeat_length in H.
  rewrite <- H. apply in_flight_le_length.
Qed.

(** C8. Entity resolution takes names that differ in case and in
    whitespace for one entity. ["Living Room Sensor"] and
    ["living room sensor "] have the same canonical key, and whatever the
    graph holds, the second resolves to the node the first resolved to.
    So do any two names with one canonical key; and the canonical key of
    a name does not change with the case of its letters, with whitespace
    around it, or with the length of a run of whitespace inside it. *)
Theorem names_resolve_to_the_same_node :
  Resolver.canonical_key (py "Living Room Sensor")
  = Resolver.canonical_key (py "living room sensor ")
  /\ (forall (similar : str -> Resolver.entity_node -> bool)
             (g : list Resolver.entity_node) (type : str),
        let first :=
          Resolver.resolve similar g (py "Living Room Sensor") type in
        fst (Resolver.resolve similar (snd first) (py "living room sensor ")
               type)
        = fst first)
  /\ (forall (similar : str -> Resolver.entity_node -> bool)
             (g : list Resolver.entity_node) (name1 name2 type : str),
        Resolver.canonical_key name1 = Resolver.canonical_key name2 ->
        let first := Resolver.resolve similar g name1 type in
        fst (Resolver.resolve similar (snd first) name2 type) = fst first)
  /\ (forall name1 name2,
        Resolver.casefold name1 = Resolver.casefold name2 ->
        Resolver.canonical_key name1 = Resolver.canonical_key name2)
  /\ (forall o1 o2 name,
        forallb isspace o1 = true -> forallb isspace o2 = true ->
        Resolver.canonical_key (o1 ++ name ++ o2)
        = Resolver.canonical_key name)
  /\ (forall x a ws1 ws2 b y,
        isspace x = false -> isspace y = false ->
        ws1 <> [] -> ws2 <> [] ->
        forallb isspace ws1 = true -> forallb isspace ws2 = true ->
        Resolver.canonical_key (x :: a ++ ws1 ++ b ++ [y])
        = Resolver.canonical_key (x :: a ++ ws2 ++ b ++ [y])).
Proof.
split; [vm_compute; reflexivity|]. split; [|split; [|split; [|split]]].
- intros similar g type first. subst first.
  apply resolve_same_key. vm_compute. reflexivity.
- intros similar g name1 name2 type H first. subst first.
  now apply resolve_same_key.
- apply canonical_key_case.
- apply canonical_key_surrounding.
- apply canonical_key_inside.
Qed.
(** C4. Fence stripping round-trips: when [s] is JSON, the answer that
    wraps [s] in a fenced code block -- the opening fence with or without
    the tag [json], the closing fence, line breaks or other whitespace
    between the fences and [s] or none, whitespace around the block or
    none -- goes through the stripping and the decoding to what [s]
    itself goes to: the value that [s] decodes to, or the limit of the
    interpreter that [s] reaches; and that is how the extraction ends. *)
Theorem fence_stripping_round_trip :
  forall (E : environment) (self : client) event_text w w1
         (s : str) (tagged : bool) (pad1 pad2 out1 out2 : str),
    loads (interpreter E) s <> Failed Malformed ->
    blank pad1 -> blank pad2 ->
    forallb isspace out1 = true -> forallb isspace out2 = true ->
    generate_completion E self (ExtractionPrompt event_text) ExtractionSystem w
    = (Returned
         (JStr (out1 ++ fenced tagged (pad1 ++ s ++ pad2) ++ out2)), w1) ->
    loads (interpreter E)
      (strip_fences
         (strip (out1 ++ fenced tagged (pad1 ++ s ++ pad2) ++ out2)))
    = loads (interpreter E) s
    /\ extract_entities_and_relationships E self event_text w
       = (delivered (loads (interpreter E) s), w1).
Proof.
intros E self event_text w w1 s tagged pad1 pad2 out1 out2
  Hs Hp1 Hp2 Ho1 Ho2 Hg.
assert (Hl : loads (interpreter E)
               (strip_fences
                  (strip (out1 ++ fenced tagged (pad1 ++ s ++ pad2)
                          ++ out2))) = loads (interpreter E) s)
  by now apply loads_fenced.
split; [exact Hl|].
rewrite (extract_after_completion _ _ _ _ _ _ Hg), Hl.
destruct (loads (interpreter E) s) as [v|[| |]];
  [reflexivity|now destruct Hs|reflexivity|reflexivity].
Qed.

Lemma fence_stripping_round_trip_witness :
  loads Examples.cpython Examples.one_entity
  = Decoded Examples.one_entity_value
  /\ (loads Examples.cpython
        (strip_fences
           (strip ([] ++ fenced true ([LF] ++ Examples.one_entity ++ [LF])
                   ++ [LF])))
      = loads Examples.cpython Examples.one_entity
      /\ extract_entities_and_relationships
           (Examples.saying
              ([] ++ fenced true ([LF] ++ Examples.one_entity ++ [LF])
               ++ [LF]))
           default_client (py "the lamp is on") empty_world
         = (Returned Examples.one_entity_value,
            with_request
              (extraction_request default_client (py "the lamp is on"))
              empty_world))
  /\ (loads Examples.cpython
        (strip_fences
           (strip ([] ++ fenced false ([] ++ Examples.one_entity ++ [])
                   ++ [])))
      = loads Examples.cpython Examples.one_entity
      /\ extract_entities_and_relationships
           (Examples.saying
              ([] ++ fenced false ([] ++ Examples.one_entity ++ []) ++ []))
           default_client (py "the lamp is on") empty_world
         = (Returned Examples.one_entity_value,
            with_request
              (extraction_request default_client (py "the lamp is on"))
              empty_world)).
Proof.
split; [vm_compute; reflexivity|]. split.
- apply (@fence_stripping_round_trip
           (Examples.saying
              ([] ++ fenced true ([LF] ++ Examples.one_entity ++ [LF])
               ++ [LF]))
           default_client (py "the lamp is on") empty_world _
           Examples.one_entity true [LF] [LF] [] [LF]);
    vm_compute; (reflexivity || discriminate).
- apply (@fence_stripping_round_trip
           (Examples.saying
              ([] ++ fenced false ([] ++ Examples.one_entity ++ []) ++ []))
           default_client (py "the lamp is on") empty_world _
           Examples.one_entity false [] [] [] []);
    vm_compute; (reflexivity || discriminate).
Defined.

(* ================================================================== *)
(** * Further properties of the client *)
(* ================================================================== *)

(** X1. Every operation of the client sends exactly one request to the
    backend, whatever the reply and however the operation ends: a
    completion and an extraction or analysis built on it go to
    [/api/generate] with the client's model, an embedding goes to
    [/api/embeddings] with the embedding model. *)
Theorem client_sends_one_request : forall (E : environment) (self : client),
  (forall prompt system_prompt w,
     sent (snd (generate_completion E self prompt system_prompt w))
     = completion_request self prompt system_prompt :: sent w)
  /\ (forall text w,
        sent (snd (generate_embeddings E self text w))
        = embeddings_request self text :: sent w)
  /\ (forall event_text w,
        sent (snd (extract_entities_and_relationships E self event_text w))
        = extraction_request self event_text :: sent w)
  /\ (forall events_summary w,
        sent (snd (analyze_patterns E self events_summary w))
        = analysis_request self events_summary :: sent w).
Proof.
intros E self. split; [|split; [|split]].
- intros prompt system_prompt w.
  destruct (generate_completion_value E self prompt system_prompt w)
    as [w1 [Hg [Hs _]]].
  now rewrite Hg.
- apply generate_embeddings_world.
- apply extract_world.
- apply analyze_world.
Qed.

(** X2. When the reply has a field ["response"] that is not a string
    (null, a number, a list, an object), [generate_completion] hands it
    on and [extract_entities_and_relationships] raises [AttributeError]:
    its handler catches [JSONDecodeError] only. *)
Theorem extraction_raises_on_non_string :
  forall (E : environment) (self : client) event_text w v,
    reply_field (py "response")
      (backend E (extraction_request self event_text :: sent w)) = Some v ->
    is_str v = false ->
    extract_entities_and_relationships E self event_text w
    = (Raised AttributeError,
       with_request (extraction_request self event_text) w).
Proof.
intros E self event_text w v Hf Hv.
pose proof (generate_completion_run E self (ExtractionPrompt event_text)
              ExtractionSystem w) as Hg.
cbv zeta in Hg. fold (extraction_request self event_text) in Hg.
unfold reply_field in Hf.
destruct (backend E _) as [e|status b]; [discriminate|].
destruct b as [e|j]; [discriminate|]. destruct j; try discriminate.
destruct (status =? 200)%Z; [|discriminate].
rewrite Hf in Hg.
apply (extract_after_non_string _ _ _ _ _ _ Hg).
intros s ->. discriminate.
Qed.

Lemma extraction_raises_on_non_string_witness :
  extract_entities_and_relationships (MoreExamples.answering JNull)
    default_client (py "the lamp is on") empty_world
  = (Raised AttributeError,
     with_request (extraction_request default_client (py "the lamp is on"))
       empty_world).
Proof.
apply (@extraction_raises_on_non_string (MoreExamples.answering JNull)
         default_client (py "the lamp is on") empty_world JNull);
  reflexivity.
Defined.

(** X3. Likewise [analyze_patterns] raises [AttributeError] when the
    field ["response"] of the reply is not a string: it has no handler
    at all. *)
Theorem analysis_raises_on_non_string :
  forall (E : environment) (self : client) events_summary w v,
    reply_field (py "response")
      (backend E (analysis_request self events_summary :: sent w)) = Some v ->
    is_str v = false ->
    analyze_patterns E self events_summary w
    = (Raised AttributeError,
       with_request (analysis_request self events_summary) w).
Proof.
intros E self events_summary w v Hf Hv.
pose proof (generate_completion_run E self (AnalysisPrompt events_summary)
              AnalysisSystem w) as Hg.
cbv zeta in Hg. fold (analysis_request self events_summary) in Hg.
unfold reply_field in Hf.
destruct (backend E _) as [e|status b]; [discriminate|].
destruct b as [e|j]; [discriminate|]. destruct j; try discriminate.
destruct (status =? 200)%Z; [|discriminate].
rewrite Hf in Hg.
exact (analyze_after_non_string _ _ _ _ _ _ Hg Hv).
Qed.

Lemma analysis_raises_on_non_string_witness :
  analyze_patterns (MoreExamples.answering (JInt 7)) default_client
    (py "events") empty_world
  = (Raised AttributeError,
     with_request (analysis_request default_client (py "events"))
       empty_world).
Proof.
apply (@analysis_raises_on_non_string (MoreExamples.answering (JInt 7))
         default_client (py "events") empty_world (JInt 7));
  reflexivity.
Defined.

(** X4. Whenever the completion gave nothing to decode -- the call
    raised, the status was not 200, the body could not be read or had no
    field ["response"], or the answer was whitespace only --
    [extract_entities_and_relationships] returns the empty extraction
    result. *)
Theorem extraction_is_empty_without_answer :
  forall (E : environment) (self : client) event_text w,
    let reply := backend E (extraction_request self event_text :: sent w) in
    reply_field (py "response") reply = None
    \/ (exists text, reply_field (py "response") reply = Some (JStr text)
                     /\ forallb isspace text = true) ->
    fst (extract_entities_and_relationships E self event_text w)
    = Returned empty_result.
Proof.
intros E self event_text w reply H.
destruct (blank_completion E self (ExtractionPrompt event_text)
            ExtractionSystem w H) as [text [w1 [Hg Ht]]].
rewrite (extract_after_completion _ _ _ _ _ _ Hg).
now rewrite (strip_spaces text Ht).
Qed.

Lemma extraction_is_empty_without_answer_witness :
  fst (extract_entities_and_relationships (MoreExamples.failing 503)
         default_client (py "the lamp is on") empty_world)
  = Returned empty_result.
Proof.
apply (@extraction_is_empty_without_answer (MoreExamples.failing 503)
         default_client (py "the lamp is on") empty_world).
left. reflexivity.
Defined.

(** X5. In the same cases [analyze_patterns] returns no insight at
    all. *)
Theorem analysis_is_empty_without_answer :
  forall (E : environment) (self : client) events_summary w,
    let reply := backend E (analysis_request self events_summary :: sent w) in
    reply_field (py "response") reply = None
    \/ (exists text, reply_field (py "response") reply = Some (JStr text)
                     /\ forallb isspace text = true) ->
    fst (analyze_patterns E self events_summary w) = Returned [].
Proof.
intros E self events_summary w reply H.
destruct (blank_completion E self (AnalysisPrompt events_summary)
            AnalysisSystem w H) as [text [w1 [Hg Ht]]].
rewrite (analyze_after_completion _ _ _ _ _ _ Hg). cbn [fst].
f_equal. apply insights_of_spaces.
intros l Hl. now apply (split_spaces LF text).
Qed.

Lemma analysis_is_empty_without_answer_witness :
  fst (analyze_patterns (Examples.saying MoreExamples.blank_lines) default_client
         (py "events") empty_world)
  = Returned [].
Proof.
apply (@analysis_is_empty_without_answer (Examples.saying MoreExamples.blank_lines)
         default_client (py "events") empty_world).
right. exists MoreExamples.blank_lines. split; reflexivity.
Defined.

(** X6. The closing slice is not a test: once the answer opens with a
    fence, its last three characters are dropped whatever they are. An
    answer whose block was never closed therefore loses the end of its
    payload, and the extraction ends as [json.loads] does on what is
    left: with its value, with the empty result where it raises
    [JSONDecodeError], with the exception where it raises another. *)
Theorem unclosed_fence_loses_three_characters :
  forall (E : environment) (self : client) event_text w w1
         (tagged : bool) (m q : str) (b : N),
    length q = 2 -> isspace b = false ->
    (tagged = false -> startswith (m ++ q ++ [b]) (py "json") = false) ->
    generate_completion E self (ExtractionPrompt event_text) ExtractionSystem w
    = (Returned (JStr (opening_fence tagged ++ m ++ q ++ [b])), w1) ->
    fst (extract_entities_and_relationships E self event_text w)
    = extracted (loads (interpreter E) m).
Proof.
intros E self event_text w w1 tagged m q b Hq Hb Hj Hg.
rewrite (extract_after_completion _ _ _ _ _ _ Hg).
replace (opening_fence tagged ++ m ++ q ++ [b])
  with (opening_fence tagged ++ (m ++ q) ++ [b])
  by now rewrite <- app_assoc.
rewrite strip_opening by exact Hb.
replace (opening_fence tagged ++ (m ++ q) ++ [b])
  with (opening_fence tagged ++ m ++ (q ++ [b]))
  by now rewrite <- app_assoc.
rewrite strip_fences_cuts.
- now destruct (loads (interpreter E) m) as [v|[| |]].
- rewrite length_app, Hq. reflexivity.
- exact Hj.
Qed.

Lemma unclosed_fence_loses_three_characters_witness :
  loads Examples.cpython (py "1234") = Decoded (JInt 1234)
  /\ fst (extract_entities_and_relationships
            (Examples.saying (opening_fence true ++ py "1" ++ py "23" ++ [52%N]))
            default_client (py "the lamp is on") empty_world)
     = extracted
         (loads
            (interpreter
               (Examples.saying
                  (opening_fence true ++ py "1" ++ py "23" ++ [52%N])))
            (py "1"))
  /\ extracted (loads Examples.cpython (py "1")) = Returned (JInt 1).
Proof.
split; [vm_compute; reflexivity|]. split; [|vm_compute; reflexivity].
apply (@unclosed_fence_loses_three_characters
         (Examples.saying (opening_fence true ++ py "1" ++ py "23" ++ [52%N]))
         default_client (py "the lamp is on") empty_world
         (with_request (extraction_request default_client (py "the lamp is on"))
            empty_world)
         true (py "1") (py "23") 52%N).
- reflexivity.
- reflexivity.
- discriminate.
- vm_compute. reflexivity.
Defined.



(** X8. The extraction does not mind what whitespace surrounds the JSON
    text of the answer -- line breaks, tabs, a no-break space, which
    [json.loads] alone would refuse: it strips the answer before it
    decodes it, and returns what [json.loads] makes of the text. *)
Theorem extraction_ignores_surrounding_whitespace :
  forall (E : environment) (self : client) event_text w w1
         (out1 out2 m : str) (a b : N) (v : json),
    forallb isspace out1 = true -> forallb isspace out2 = true ->
    isspace a = false -> isspace b = false ->
    loads (interpreter E) (a :: m ++ [b]) = Decoded v ->
    generate_completion E self (ExtractionPrompt event_text) ExtractionSystem w
    = (Returned (JStr (out1 ++ (a :: m ++ [b]) ++ out2)), w1) ->
    extract_entities_and_relationships E self event_text w = (Returned v, w1).
Proof.
intros E self event_text w w1 out1 out2 m a b v Ho1 Ho2 Ha Hb Hv Hg.
rewrite (extract_after_completion _ _ _ _ _ _ Hg).
rewrite strip_padded by assumption.
rewrite (strip_fences_json (interpreter E)); [now rewrite Hv|].
rewrite Hv. discriminate.
Qed.

Lemma extraction_ignores_surrounding_whitespace_witness :
  loads Examples.cpython
    ([160%N] ++ (91%N :: py "1, 2" ++ [93%N]) ++ [160%N; 10%N])
  = Failed Malformed
  /\ extract_entities_and_relationships
       (Examples.saying
          ([160%N] ++ (91%N :: py "1, 2" ++ [93%N]) ++ [160%N; 10%N]))
       default_client (py "the lamp is on") empty_world
     = (Returned (JList [JInt 1; JInt 2]),
        with_request (extraction_request default_client (py "the lamp is on"))
          empty_world).
Proof.
split; [vm_compute; reflexivity|].
apply (@extraction_ignores_surrounding_whitespace
         (Examples.saying
            ([160%N] ++ (91%N :: py "1, 2" ++ [93%N]) ++ [160%N; 10%N]))
         default_client (py "the lamp is on") empty_world _
         [160%N] [160%N; 10%N] (py "1, 2") 91%N 93%N
         (JList [JInt 1; JInt 2]));
  vm_compute; reflexivity.
Defined.

(* ================================================================== *)
(** * Further properties of the engine *)
(* ================================================================== *)

(** X9. [check_environment] returns [True] exactly when each of the five
    required variables is set to a string that is not empty; otherwise
    it returns [False] after logging, at level ERROR, the required
    variables that are not set or are set to the empty string. *)
Theorem check_environment_reports_missing :
  forall (E : environment) (w : world),
    exists ok w',
      check_environment E w = (Returned ok, w')
      /\ (ok = true <->
          forall var, In var required_vars ->
            exists v, getenv E var = Some v /\ v <> [])
      /\ (ok = false ->
          exists missing,
            log w' = log w ++ [(ERROR, MissingEnvironmentVariables missing)]
            /\ forall var,
                 In var missing <->
                 In var required_vars
                 /\ (getenv E var = None \/ getenv E var = Some [])).
Proof.
intros E w. unfold check_environment.
destruct (filter (unset E) required_vars) as [|m ms] eqn:Hf.
- exists true. eexists. split; [reflexivity|]. split; [|discriminate].
  split; [|reflexivity]. intros _ var Hin.
  destruct (unset E var) eqn:Hu.
  + assert (Hm : In var (filter (unset E) required_vars))
      by (apply filter_In; now split).
    rewrite Hf in Hm. destruct Hm.
  + unfold unset in Hu. destruct (getenv E var) as [[|c v]|];
      try discriminate.
    exists (c :: v). split; [reflexivity|discriminate].
- exists false. eexists. split; [reflexivity|]. split.
  + split; [discriminate|]. intros Hall. exfalso.
    assert (Hm : In m (filter (unset E) required_vars))
      by (rewrite Hf; now left).
    apply filter_In in Hm as [Hin Hu].
    destruct (Hall m Hin) as [v [Hv Hne]].
    apply unset_iff in Hu. destruct Hu as [Hu|Hu]; congruence.
  + intros _. exists (m :: ms). split; [reflexivity|].
    intros var. rewrite <- Hf, filter_In, unset_iff. reflexivity.
Qed.

(** X10. The configuration keeps a required variable that is set as it
    is, the empty string too: a default stands in only for a variable
    that is not set. [check_environment], which runs later, counts the
    empty one as missing; so once it has succeeded, the configuration
    holds the environment's own (non-empty) value of every required
    variable. *)
Theorem configuration_keeps_environment :
  forall (E : environment) (var section key : str),
    Startup.config_place var = Some (section, key) ->
    In var required_vars
    /\ (forall v, getenv E var = Some v ->
          Startup.config_entry (fst (Startup._load_config E)) section key
          = Some (JStr v))
    /\ (getenv E var = Some [] -> unset E var = true)
    /\ (forall w, fst (check_environment E w) = Returned true ->
          exists v, getenv E var = Some v /\ v <> []
                    /\ Startup.config_entry (fst (Startup._load_config E))
                         section key = Some (JStr v)).
Proof.
intros E var section key Hp.
pose proof (config_place_required var section key Hp) as Hin.
split; [exact Hin|]. split.
- intros v Hv. now apply (config_entry_set E var).
- split.
  + intros H. apply unset_iff. now right.
  + intros w Hok.
    destruct (check_environment_true E w Hok var Hin) as [v [Hv Hne]].
    exists v. repeat split; try assumption.
    now apply (config_entry_set E var).
Qed.

Lemma configuration_keeps_environment_witness :
  In (py "NEO4J_URI") required_vars
  /\ (forall v, getenv MoreExamples.empty_uri (py "NEO4J_URI") = Some v ->
        Startup.config_entry (fst (Startup._load_config MoreExamples.empty_uri))
          (py "neo4j") (py "uri")
        = Some (JStr v))
  /\ (getenv MoreExamples.empty_uri (py "NEO4J_URI") = Some [] ->
      unset MoreExamples.empty_uri (py "NEO4J_URI") = true)
  /\ (forall w,
        fst (check_environment MoreExamples.empty_uri w) = Returned true ->
        exists v, getenv MoreExamples.empty_uri (py "NEO4J_URI") = Some v
                  /\ v <> []
                  /\ Startup.config_entry
                       (fst (Startup._load_config MoreExamples.empty_uri))
                       (py "neo4j") (py "uri") = Some (JStr v)).
Proof.
apply (@configuration_keeps_environment MoreExamples.empty_uri
         (py "NEO4J_URI") (py "neo4j") (py "uri")).
reflexivity.
Defined.

(** X11. A run with its environment complete, for as long as Ctrl-C
    stays away: the records passed to the logger are the ten of the
    start-up and then, round after round, the number of the cycle and the
    five records of the cycle (one of them at level DEBUG); every cycle
    reads the clock four times, and every round sleeps once. *)
Theorem uninterrupted_run_trace :
  forall (E : environment) (iterations : nat) (w : world),
    filter (unset E) required_vars = [] ->
    (forall j, j < iterations -> sigint E (sleeps w + j) = false) ->
    exists w',
      run E iterations w = (StillRunning, w')
      /\ log w' = log w ++ startup_trace
                  ++ rounds_trace E iterations 1 (readings w)
      /\ readings w' = 4 * iterations + readings w
      /\ sleeps w' = iterations + sleeps w.
Proof.
intros E iterations w Hf Hq.
rewrite (run_configured_exact E iterations w Hf).
match goal with
| |- context [try_finally _ _ ?x] =>
    destruct (main_loop_trace E iterations 0 x)
      as [w' [Hl [Hlog [Hr [Hs _]]]]]; [exact Hq|]
end.
exists w'. split.
- unfold try_finally, try_except_interrupt. now rewrite Hl.
- cbn [sent log readings sleeps graph] in *.
  rewrite Hlog, <- app_assoc. repeat split; assumption.
Qed.

Lemma uninterrupted_run_trace_witness :
  exists w',
    run Examples.configured 2 empty_world = (StillRunning, w')
    /\ log w' = log empty_world ++ startup_trace
                ++ rounds_trace Examples.configured 2 1 (readings empty_world)
    /\ readings w' = 4 * 2 + readings empty_world
    /\ sleeps w' = 2 + sleeps empty_world.
Proof.
apply (@uninterrupted_run_trace Examples.configured 2 empty_world).
- reflexivity.
- intros j _. reflexivity.
Defined.

(** X12. In such a run the cycles are numbered 1, 2, 3, ... in the
    order in which they run, and nothing is logged at the levels WARNING
    or ERROR: the handlers of the engine are never entered. *)
Theorem cycles_are_numbered_and_quiet :
  forall (E : environment) (iterations : nat) (w : world),
    filter (unset E) required_vars = [] ->
    (forall j, j < iterations -> sigint E (sleeps w + j) = false) ->
    cycle_numbers (log (snd (run E iterations w)))
    = cycle_numbers (log w) ++ seq 1 iterations
    /\ filter is_alarm (log (snd (run E iterations w)))
       = filter is_alarm (log w).
Proof.
intros E iterations w Hf Hq.
rewrite (run_configured_exact E iterations w Hf).
match goal with
| |- context [try_finally _ _ ?x] =>
    destruct (main_loop_trace E iterations 0 x)
      as [w' [Hl [Hlog _]]]; [exact Hq|]
end.
unfold try_finally, try_except_interrupt. rewrite Hl. cbn [snd].
rewrite Hlog. cbn [log readings]. split.
- rewrite !cycle_numbers_app, cycle_numbers_rounds.
  cbn [startup_trace cycle_numbers]. now rewrite app_nil_r.
- rewrite !filter_app, no_alarm_in_rounds.
  cbn [startup_trace filter is_alarm fst]. now rewrite !app_nil_r.
Qed.

Lemma cycles_are_numbered_and_quiet_witness :
  cycle_numbers (log (snd (run Examples.configured 3 empty_world)))
  = cycle_numbers (log empty_world) ++ seq 1 3
  /\ filter is_alarm (log (snd (run Examples.configured 3 empty_world)))
     = filter is_alarm (log empty_world).
Proof.
apply (@cycles_are_numbered_and_quiet Examples.configured 3 empty_world).
- reflexivity.
- intros j _. reflexivity.
Defined.
